(** * Editor-to-CRDT binding and document session

    A shallow embedding of [src/codemirror-binding.js] (class
    [AutomergeBinding]) and [src/automerge-sync.js] (classes
    [EventEmitter] and [AutomergeSync]) of the collaborative web editor,
    with the properties the specification states about them.

    JavaScript objects are records, [null]/[undefined] is [None], methods
    are computations in a state-and-exception monad over one [World]
    holding every object the two classes touch.  Strings are sequences of
    code units, written as Rocq strings; numbers that index into text are
    integers ([Z]).  The CRDT engine (Automerge, automerge-repo) and the
    editor widget (CodeMirror) are not part of the repository: the engine
    is modelled by its contract in section 6 of the specification, the
    widget is an interface ([EditorSurface]) the theorems quantify over. *)

From Stdlib Require Import ZArith String List Lia.
From stdpp Require Import base option list strings gmap.

Local Open Scope Z_scope.

(** ** JavaScript values used by the two classes *)

(** Thrown values.  [Error msg] is [new Error(msg)]; the other two are
    what the collaborators throw. *)
Inductive JSError :=
  | Error (msg : string)
  | RangeError (msg : string)
  | TypeError (msg : string).

(** [s.length] *)
Definition str_length (s : string) : Z := Z.of_nat (String.length s).

(** [s.startsWith(p)] *)
Definition startsWith (p s : string) : bool := String.prefix p s.

(** ** The CRDT engine (external collaborator) *)

(** The [content] field of a document as the code tests it:
    [undefined], a primitive string, or a text object read through
    [toString()]. *)
Inductive Content :=
  | CUndefined
  | CString (s : string)
  | CText (s : string).

Record Metadata := mkMetadata { created : Z; version : Z }.

(** A document snapshot, [handle.doc()]. *)
Record Doc := mkDoc { content : Content; metadata : option Metadata }.

(** One element of a patch path: a property name or an index. *)
Inductive Prop_ :=
  | PKey (k : string)
  | PIndex (i : Z).

#[global] Instance Prop__eq_dec : EqDecision Prop_.
Proof. solve_decision. Defined.

(** A change descriptor as [_handleRemoteChange] reads it: [action],
    [path], and the optional [length] and [value] fields. *)
Record Patch := mkPatch {
  action : string;
  path : list Prop_;
  p_length : option Z;
  p_value : option string
}.

(** Text behind a [content] field, when there is one. *)
Definition content_text (c : Content) : option string :=
  match c with
  | CUndefined => None
  | CString s => Some s
  | CText s => Some s
  end.

Definition content_with (c : Content) (s : string) : Content :=
  match c with
  | CText _ => CText s
  | _ => CString s
  end.

(** Remove the first [n] code units; [None] when there are fewer. *)
Fixpoint str_drop (n : nat) (s : string) : option string :=
  match n with
  | O => Some s
  | S n' =>
      match s with
      | EmptyString => None
      | String _ s' => str_drop n' s'
      end
  end.

(** The splice primitive on text, one code unit at a time: walk to
    [index], delete [del] code units, insert [ins] there.  [None] when
    the range leaves the text. *)
Fixpoint str_splice (index del : nat) (ins : string) (s : string) : option string :=
  match index with
  | O => (fun rest => ins +:+ rest) <$> str_drop del s
  | S i' =>
      match s with
      | EmptyString => None
      | String c s' => String c <$> str_splice i' del ins s'
      end
  end.

(** A mutation of a draft, as [handle.change] runs it: it throws, or
    yields the new document together with the patches the engine
    reports for it. *)
Definition Mutation := Doc -> JSError + (Doc * list Patch).

(** Patches the engine reports for a text splice: a deletion of
    [del] code units, then an insertion of [ins], both at [index]. *)
Definition splice_patches (index del : Z) (ins : string) : list Patch :=
  (if 0 <? del
   then [mkPatch "del" [PKey "content"; PIndex index] (Some del) None]
   else []) ++
  (if decide (ins = "")
   then []
   else [mkPatch "splice" [PKey "content"; PIndex index] None (Some ins)]).

(** [Automerge.splice(d, ['content'], index, deleteCount, text)] on a
    draft.  The engine is the enforcement point for the range (section
    4.3 of the specification): it throws when the range is not inside
    the text or when the field holds no text. *)
Definition Automerge_splice (index del : Z) (ins : string) : Mutation :=
  fun d =>
    match content_text (content d) with
    | None => inl (TypeError "splice: no text at this path")
    | Some s =>
        if (index <? 0) || (del <? 0)
        then inl (RangeError "splice: negative index or count")
        else
          match str_splice (Z.to_nat index) (Z.to_nat del) ins s with
          | None => inl (RangeError "splice: range outside the text")
          | Some s' =>
              inr (mkDoc (content_with (content d) s') (metadata d),
                   splice_patches index del ins)
          end
    end.

(** The mutation [createDocument] runs on a fresh document:
    [d.content = ""; d.metadata = { created, version: 1 }]. *)
Definition init_document (now : Z) : Mutation :=
  fun _ =>
    inr (mkDoc (CString "") (Some (mkMetadata now 1)),
         [mkPatch "put" [PKey "content"] None (Some "");
          mkPatch "put" [PKey "metadata"] None None]).

(** Functions registered on a handle's [change] event.  Each closure
    the code creates gets a fresh number, so that [off] removes exactly
    the function it is given. *)
Inductive Callback :=
  | SyncChangeHandler (c : nat)
  | BindingChangeHandler (c : nat).

#[global] Instance Callback_eq_dec : EqDecision Callback.
Proof. solve_decision. Defined.

(** A document handle: the current snapshot ([None] while the handle is
    not ready) and the listeners of its [change] event, in
    registration order. *)
Record DocHandle := mkHandle {
  h_doc : option Doc;
  h_listeners : list Callback
}.

(** [repo.find] accepts the URL form of an identifier; the handle's
    [documentId] is the identifier without the scheme. *)
Definition scheme : string := "automerge:".

Definition documentIdOf (url : string) : string :=
  if startsWith scheme url
  then default url (str_drop (String.length scheme) url)
  else url.

(** The identifier [openDocument] resolves:
    [documentId.startsWith('automerge:') ? documentId : `automerge:${documentId}`]. *)
Definition fullDocId (documentId : string) : string :=
  if startsWith scheme documentId then documentId
  else scheme +:+ documentId.

(** ** The editor widget (external collaborator) *)

Record SelectionRange := mkSelection { anchor : Z; head : Z }.

(** One edit handed to [dispatch]: replace [cs_from, cs_to) by
    [cs_insert]. *)
Record ChangeSpec := mkChange { cs_from : Z; cs_to : Z; cs_insert : string }.

(** The [changes] field of a dispatch is an array of edits or one edit. *)
Inductive ChangesArg :=
  | ChangeArray (l : list ChangeSpec)
  | ChangeOne (c : ChangeSpec).

(** The argument of [view.dispatch]: [tr_annotations] is the value given
    to [isRemoteChange.of], when the annotation is present. *)
Record TransactionSpec := mkTransactionSpec {
  tr_changes : ChangesArg;
  tr_selection : option SelectionRange;
  tr_annotations : option bool
}.

(** What the binding uses of an editor view: the text
    ([view.state.doc.toString()]), the main selection, and the effect
    of a dispatch, which may throw. *)
Class EditorSurface (V : Type) := {
  state_doc : V -> string;
  state_selection_main : V -> SelectionRange;
  view_apply : TransactionSpec -> V -> JSError + V
}.

(** A transaction of an update, as far as [applyLocalChange] looks at
    it: the value of its [isRemoteChange] annotation, if any. *)
Record Transaction := mkTransaction { annotation_isRemoteChange : option bool }.

(** One changed range delivered by [iterChanges]. *)
Record ChangedRange := mkRange {
  fromA : Z; toA : Z; fromB : Z; toB : Z; inserted : string
}.

Record ViewUpdate := mkUpdate {
  transactions : list Transaction;
  docChanged : bool;
  changes : list ChangedRange
}.

(** Truthiness of an annotation value. *)
Definition truthy (a : option bool) : bool := default false a.

(** The body of the loop over the patches: what one patch adds to
    [changes].  [index] is [path[1]] when that is a number and [0]
    otherwise; [deleteCount] is [patch.length || 0] and [insertText] is
    [patch.value || ''], where [0], the empty string and a missing
    field are falsy. *)
Definition patch_change (patch : Patch) : list ChangeSpec :=
  if decide (path patch !! 0%nat ≠ Some (PKey "content")) then []
  else if decide (action patch = "splice") then
    let index := match path patch !! 1%nat with
                 | Some (PIndex i) => i
                 | _ => 0
                 end in
    let deleteCount := match p_length patch with
                       | Some n => if n =? 0 then 0 else n
                       | None => 0
                       end in
    let insertText := match p_value patch with
                      | Some v => if decide (v = "") then "" else v
                      | None => ""
                      end in
    [mkChange index (index + deleteCount) insertText]
  else [].

(** The loop over the patches: [changes] starts empty and grows by what
    each patch adds, in order. *)
Definition patches_changes (patches : list Patch) : list ChangeSpec :=
  foldl (fun changes patch => changes ++ patch_change patch) [] patches.

(** ** Objects of the program *)

(** Payload of an event emitted by the session. *)
Inductive EventData :=
  | NoData
  | DocumentReady (doc : option Doc) (handle : string) (isNew : bool)
  | RemoteChange (doc : option Doc) (patches : option (list Patch))
  | ErrorEvent (error : JSError) (context : string).

(** Fields of an [AutomergeSync] instance.  A handle object is referred
    to by the identifier of its document; [repo] holds the URL the
    repository was created for. *)
Record AutomergeSync := mkSync {
  syncUrl : string;
  repo : option string;
  handle : option string;
  _documentId : option string;
  _isConnected : bool;
  _changeHandler : option nat;
  _listeners : gmap string (list nat)
}.

(** Fields of an [AutomergeBinding] instance ([view] is the one view of
    the world below). *)
Record AutomergeBinding := mkBinding {
  b_handle : string;
  _isSyncingLocalChange : bool;
  b_changeHandler : option nat;
  _attached : bool
}.

(** [new AutomergeSync(syncUrl)], with [config.urls.automergeSync] as
    [configured]. *)
Definition AutomergeSync_new (configured : string) (url : option string) : AutomergeSync :=
  mkSync (match url with
          | Some u => if decide (u = "") then configured else u
          | None => configured
          end)
         None None None false None ∅.

(** [new AutomergeBinding(view, handle)] *)
Definition AutomergeBinding_new (h : string) : AutomergeBinding :=
  mkBinding h false None false.

Definition set_repo (r : option string) (s : AutomergeSync) : AutomergeSync :=
  mkSync (syncUrl s) r (handle s) (_documentId s) (_isConnected s)
         (_changeHandler s) (_listeners s).

Definition set_handle (h : option string) (s : AutomergeSync) : AutomergeSync :=
  mkSync (syncUrl s) (repo s) h (_documentId s) (_isConnected s)
         (_changeHandler s) (_listeners s).

Definition set_documentId (d : option string) (s : AutomergeSync) : AutomergeSync :=
  mkSync (syncUrl s) (repo s) (handle s) d (_isConnected s)
         (_changeHandler s) (_listeners s).

Definition set_isConnected (b : bool) (s : AutomergeSync) : AutomergeSync :=
  mkSync (syncUrl s) (repo s) (handle s) (_documentId s) b
         (_changeHandler s) (_listeners s).

Definition set_changeHandler (c : option nat) (s : AutomergeSync) : AutomergeSync :=
  mkSync (syncUrl s) (repo s) (handle s) (_documentId s) (_isConnected s)
         c (_listeners s).

Definition set_listeners (l : gmap string (list nat)) (s : AutomergeSync) : AutomergeSync :=
  mkSync (syncUrl s) (repo s) (handle s) (_documentId s) (_isConnected s)
         (_changeHandler s) l.

Definition set_isSyncingLocalChange (b : bool) (x : AutomergeBinding) : AutomergeBinding :=
  mkBinding (b_handle x) b (b_changeHandler x) (_attached x).

Definition set_b_changeHandler (c : option nat) (x : AutomergeBinding) : AutomergeBinding :=
  mkBinding (b_handle x) (_isSyncingLocalChange x) c (_attached x).

Definition set_attached (b : bool) (x : AutomergeBinding) : AutomergeBinding :=
  mkBinding (b_handle x) (_isSyncingLocalChange x) (b_changeHandler x) b.

(** How a call ends: it returns a value or throws. *)
Inductive Completion (A : Type) :=
  | Returned (a : A)
  | Threw (e : JSError).
Arguments Returned {A} a.
Arguments Threw {A} e.

Section Program.

Context {V : Type} `{EditorSurface V}.

(** Everything the two classes read or write.  [handles] is the store
    of handle objects the repository resolves identifiers against.
    The last five fields record what leaves the program: calls of
    [emit], calls of the session's subscribers, calls of
    [view.dispatch], error banners, and the address set with
    [history.replaceState]. *)
Record World := mkWorld {
  handles : gmap string DocHandle;
  sync : AutomergeSync;
  binding : AutomergeBinding;
  view : V;
  nextClosure : nat;
  emitted : list (string * EventData);
  delivered : list (nat * string * EventData);
  dispatched : list TransactionSpec;
  banners : list string;
  pathname : string;
  address : string
}.

Definition with_handles (f : gmap string DocHandle -> gmap string DocHandle) (w : World) : World :=
  mkWorld (f (handles w)) (sync w) (binding w) (view w) (nextClosure w)
          (emitted w) (delivered w) (dispatched w) (banners w) (pathname w) (address w).

Definition with_sync (f : AutomergeSync -> AutomergeSync) (w : World) : World :=
  mkWorld (handles w) (f (sync w)) (binding w) (view w) (nextClosure w)
          (emitted w) (delivered w) (dispatched w) (banners w) (pathname w) (address w).

Definition with_binding (f : AutomergeBinding -> AutomergeBinding) (w : World) : World :=
  mkWorld (handles w) (sync w) (f (binding w)) (view w) (nextClosure w)
          (emitted w) (delivered w) (dispatched w) (banners w) (pathname w) (address w).

Definition with_view (v : V) (w : World) : World :=
  mkWorld (handles w) (sync w) (binding w) v (nextClosure w)
          (emitted w) (delivered w) (dispatched w) (banners w) (pathname w) (address w).

Definition with_nextClosure (n : nat) (w : World) : World :=
  mkWorld (handles w) (sync w) (binding w) (view w) n
          (emitted w) (delivered w) (dispatched w) (banners w) (pathname w) (address w).

Definition with_emitted (l : list (string * EventData)) (w : World) : World :=
  mkWorld (handles w) (sync w) (binding w) (view w) (nextClosure w)
          l (delivered w) (dispatched w) (banners w) (pathname w) (address w).

Definition with_delivered (l : list (nat * string * EventData)) (w : World) : World :=
  mkWorld (handles w) (sync w) (binding w) (view w) (nextClosure w)
          (emitted w) l (dispatched w) (banners w) (pathname w) (address w).

Definition with_dispatched (l : list TransactionSpec) (w : World) : World :=
  mkWorld (handles w) (sync w) (binding w) (view w) (nextClosure w)
          (emitted w) (delivered w) l (banners w) (pathname w) (address w).

Definition with_banners (l : list string) (w : World) : World :=
  mkWorld (handles w) (sync w) (binding w) (view w) (nextClosure w)
          (emitted w) (delivered w) (dispatched w) l (pathname w) (address w).

Definition with_address (a : string) (w : World) : World :=
  mkWorld (handles w) (sync w) (binding w) (view w) (nextClosure w)
          (emitted w) (delivered w) (dispatched w) (banners w) (pathname w) a.

(** *** Computations: state that survives a throw *)

Definition M (A : Type) : Type := World -> World * Completion A.

Definition ret {A} (a : A) : M A := fun w => (w, Returned a).
Definition throw {A} (e : JSError) : M A := fun w => (w, Threw e).

Definition bind {A B} (m : M A) (k : A -> M B) : M B :=
  fun w =>
    match m w with
    | (w', Returned a) => k a w'
    | (w', Threw e) => (w', Threw e)
    end.

Definition get : M World := fun w => (w, Returned w).
Definition modify (f : World -> World) : M unit := fun w => (f w, Returned tt).

(** [try { body } finally { fin }] *)
Definition try_finally {A} (body : M A) (fin : M unit) : M A :=
  fun w =>
    match body w with
    | (w', r) =>
        match fin w' with
        | (w'', Returned _) => (w'', r)
        | (w'', Threw e) => (w'', Threw e)
        end
    end.

(** [try { body } catch (err) { handler(err) }] *)
Definition try_catch {A} (body : M A) (handler : JSError -> M A) : M A :=
  fun w =>
    match body w with
    | (w', Returned a) => (w', Returned a)
    | (w', Threw e) => handler e w'
    end.

Notation "'let!' x ':=' m 'in' k" := (bind m (fun x => k))
  (at level 10, x pattern, m at level 100, k at level 200).
Notation "m ';;' k" := (bind m (fun _ => k))
  (at level 100, k at level 200, right associativity).

(** [for (const x of xs) body(x)], stopping at the first throw. *)
Fixpoint for_each {A} (body : A -> M unit) (xs : list A) : M unit :=
  match xs with
  | [] => ret tt
  | x :: xs' => body x;; for_each body xs'
  end.

(** *** [EventEmitter] *)

(** [on(event, callback)]: the listeners of an event form a set, kept
    in insertion order.  The function it returns is [off] with the same
    arguments. *)
Definition on (event : string) (callback : nat) : M unit :=
  modify (with_sync (fun s =>
    let ls := default [] (_listeners s !! event) in
    set_listeners
      (<[event := if decide (callback ∈ ls) then ls else ls ++ [callback]]>
         (_listeners s)) s)).

(** [off(event, callback)] *)
Definition off (event : string) (callback : nat) : M unit :=
  modify (with_sync (fun s =>
    match _listeners s !! event with
    | Some ls =>
        set_listeners
          (<[event := filter (fun c => c ≠ callback) ls]> (_listeners s)) s
    | None => s
    end)).

(** [emit(event, data)]: every listener is called inside its own
    [try]/[catch], so [emit] returns normally.  Subscribers are code
    outside the two classes; a call is recorded in [delivered]. *)
Definition emit (event : string) (data : EventData) : M unit :=
  modify (fun w =>
    with_delivered
      (delivered w ++
       ((fun c => (c, event, data)) <$> default [] (_listeners (sync w) !! event)))
      (with_emitted (emitted w ++ [(event, data)]) w)).

(** *** Handles *)

(** [handle.on('change', cb)] *)
Definition handle_on (h : string) (cb : Callback) : M unit :=
  modify (with_handles
    (alter (fun hd => mkHandle (h_doc hd) (h_listeners hd ++ [cb])) h)).

(** [handle.off('change', cb)] *)
Definition handle_off (h : string) (cb : Callback) : M unit :=
  modify (with_handles
    (alter (fun hd => mkHandle (h_doc hd) (filter (fun c => c ≠ cb) (h_listeners hd))) h)).

(** [handle.doc()] *)
Definition handle_doc (h : string) (w : World) : option Doc :=
  hd ← handles w !! h; h_doc hd.

(** The listeners of the handle [h] (none when there is no such
    handle). *)
Definition listeners_of (w : World) (h : string) : list Callback :=
  default [] (h_listeners <$> handles w !! h).

(** A new closure. *)
Definition fresh_closure : M nat :=
  fun w => (with_nextClosure (S (nextClosure w)) w, Returned (nextClosure w)).

(** *** [AutomergeBinding] *)

(** [view.dispatch(tr)] *)
Definition view_dispatch (tr : TransactionSpec) : M unit :=
  fun w =>
    let w1 := with_dispatched (dispatched w ++ [tr]) w in
    match view_apply tr (view w1) with
    | inl e => (w1, Threw e)
    | inr v => (with_view v w1, Returned tt)
    end.

(** [attach()] *)
Definition attach : M unit :=
  let! w := get in
  if _attached (binding w) then ret tt
  else
    let! c := fresh_closure in
    modify (with_binding (set_b_changeHandler (Some c)));;
    handle_on (b_handle (binding w)) (BindingChangeHandler c);;
    modify (with_binding (set_attached true)).

(** [detach()] *)
Definition detach : M unit :=
  let! w := get in
  if negb (_attached (binding w)) then ret tt
  else
    match b_changeHandler (binding w) with
    | Some c =>
        handle_off (b_handle (binding w)) (BindingChangeHandler c);;
        modify (with_binding (set_b_changeHandler None))
    | None => ret tt
    end;;
    modify (with_binding (set_attached false)).

(** [_applyFullSync(doc)] *)
Definition _applyFullSync (doc : Doc) : M unit :=
  match content_text (content doc) with
  | None => throw (TypeError "doc.content is undefined")
  | Some newText =>
      let! w := get in
      let oldText := state_doc (view w) in
      if decide (newText ≠ oldText) then
        let selection := state_selection_main (view w) in
        let newAnchor := Z.min (anchor selection) (str_length newText) in
        let newHead := Z.min (head selection) (str_length newText) in
        view_dispatch
          {| tr_changes := ChangeOne (mkChange 0 (str_length oldText) newText);
             tr_selection := Some (mkSelection newAnchor newHead);
             tr_annotations := Some true |}
      else ret tt
  end.

(** [_handleRemoteChange(doc, patches)] *)
Definition _handleRemoteChange (doc : option Doc) (patches : option (list Patch)) : M unit :=
  let! w := get in
  if _isSyncingLocalChange (binding w) then ret tt
  else
    match doc with
    | None => ret tt
    | Some d =>
        match content d with
        | CUndefined => ret tt
        | _ =>
            let changes :=
              match patches with
              | Some ps => patches_changes ps
              | None => []
              end in
            match changes with
            | _ :: _ =>
                view_dispatch
                  {| tr_changes := ChangeArray changes;
                     tr_selection := None;
                     tr_annotations := Some true |}
            | [] => _applyFullSync d
            end
        end
    end.

(** [loadInitialContent(content)] *)
Definition loadInitialContent (content : option string) : M unit :=
  match content with
  | None => ret tt
  | Some c =>
      if decide (c = "") then ret tt
      else
        view_dispatch
          {| tr_changes := ChangeOne (mkChange 0 0 c);
             tr_selection := None;
             tr_annotations := Some true |}
  end.

(** *** The [change] event of a handle *)

(** Calling one listener with [{ doc, patches }]: the session's handler
    emits [remote-change], the binding's handler runs
    [_handleRemoteChange]. *)
Definition call_listener (doc : option Doc) (patches : option (list Patch))
    (cb : Callback) : M unit :=
  match cb with
  | SyncChangeHandler _ => emit "remote-change" (RemoteChange doc patches)
  | BindingChangeHandler _ => _handleRemoteChange doc patches
  end.

(** The handle announces a new snapshot to its listeners, synchronously
    and in registration order. *)
Definition handle_emit_change (h : string) (doc : Doc) (patches : list Patch) : M unit :=
  let! w := get in
  for_each (call_listener (Some doc) (Some patches)) (listeners_of w h).

(** [handle.change(mutator)]: throws when the handle is not ready or
    the mutator throws; otherwise stores the new snapshot and, when the
    document changed, announces it. *)
Definition handle_change (h : string) (mutator : Mutation) : M unit :=
  let! w := get in
  match handles w !! h with
  | None => throw (Error "DocHandle is unavailable")
  | Some hd =>
      match h_doc hd with
      | None => throw (Error "DocHandle is not ready")
      | Some d =>
          match mutator d with
          | inl e => throw e
          | inr (d', patches) =>
              modify (with_handles (<[h := mkHandle (Some d') (h_listeners hd)]>));;
              match patches with
              | [] => ret tt
              | _ => handle_emit_change h d' patches
              end
          end
      end
  end.

(** A change made elsewhere reaches the handle: the engine stores the
    merged snapshot and announces it with its patches. *)
Definition receive_change (h : string) (doc : Doc) (patches : list Patch) : M unit :=
  modify (with_handles (alter (fun hd => mkHandle (Some doc) (h_listeners hd)) h));;
  handle_emit_change h doc patches.

(** [applyLocalChange(update)] *)
Definition applyLocalChange (update : ViewUpdate) : M bool :=
  let hasRemoteChange :=
    existsb (fun tr => truthy (annotation_isRemoteChange tr)) (transactions update) in
  if hasRemoteChange then ret false
  else if negb (docChanged update) then ret false
  else
    modify (with_binding (set_isSyncingLocalChange true));;
    try_finally
      (let! w := get in
       for_each (fun r =>
                   let deleteCount := toA r - fromA r in
                   let insertText := inserted r in
                   handle_change (b_handle (binding w))
                                 (Automerge_splice (fromA r) deleteCount insertText))
                (changes update);;
       ret true)
      (modify (with_binding (set_isSyncingLocalChange false))).

(** *** [AutomergeSync] *)

(** [this.handle], for a method call on it: a property access on
    [null] throws. *)
Definition this_handle : M string :=
  let! w := get in
  match handle (sync w) with
  | Some h => ret h
  | None => throw (TypeError "this.handle is null")
  end.

(** [_setupChangeHandler()] *)
Definition _setupChangeHandler : M unit :=
  let! c := fresh_closure in
  modify (with_sync (set_changeHandler (Some c)));;
  let! h := this_handle in
  handle_on h (SyncChangeHandler c).

(** [connect()] *)
Definition connect : M unit :=
  let! w := get in
  match repo (sync w) with
  | Some _ => ret tt
  | None =>
      modify (with_sync (fun s => set_repo (Some (syncUrl s)) s));;
      modify (with_sync (set_isConnected true));;
      emit "connected" NoData
  end.

(** [closeDocument()] *)
Definition closeDocument : M unit :=
  let! w := get in
  match handle (sync w) with
  | None => ret tt
  | Some h =>
      match _changeHandler (sync w) with
      | Some c =>
          handle_off h (SyncChangeHandler c);;
          modify (with_sync (set_changeHandler None))
      | None => ret tt
      end;;
      modify (with_sync (set_handle None));;
      modify (with_sync (set_documentId None));;
      emit "document-closed" NoData
  end.

(** [disconnect()] *)
Definition disconnect : M unit :=
  let! w := get in
  match handle (sync w) with
  | Some _ => closeDocument
  | None => ret tt
  end;;
  modify (with_sync (set_repo None));;
  modify (with_sync (set_isConnected false));;
  emit "disconnected" NoData.

(** [repo.create()]: a ready handle on an empty document, under the
    identifier the engine draws for it. *)
Definition repo_create (newId : string) : M string :=
  modify (with_handles (<[newId := mkHandle (Some (mkDoc CUndefined None)) []]>));;
  ret newId.

(** [createDocument()].  [newId] is the identifier the engine draws,
    [now] the value of [Date.now()]. *)
Definition createDocument (newId : string) (now : Z) : M (option string) :=
  let! w := get in
  match repo (sync w) with
  | None => throw (Error "Not connected. Call connect() first.")
  | Some _ =>
      let! h := repo_create newId in
      modify (with_sync (set_handle (Some h)));;
      let! h := this_handle in
      handle_change h (init_document now);;
      let! h := this_handle in
      modify (with_sync (set_documentId (Some h)));;
      _setupChangeHandler;;
      let! w := get in
      let newUrl := pathname w +:+ "?doc=" +:+ default "null" (_documentId (sync w)) in
      modify (with_address newUrl);;
      let! h := this_handle in
      let! w := get in
      emit "document-ready" (DocumentReady (handle_doc h w) h true);;
      let! w := get in
      ret (_documentId (sync w))
  end.

(** [await this.repo.find(fullDocId)]: rejects when the identifier
    resolves to nothing. *)
Definition repo_find (url : string) : M string :=
  let! w := get in
  match handles w !! documentIdOf url with
  | Some _ => ret (documentIdOf url)
  | None => throw (Error "Document is unavailable")
  end.

(** [await handle.whenReady()]: rejects when the handle does not become
    ready within the engine's bound. *)
Definition handle_whenReady (h : string) : M unit :=
  let! w := get in
  match handle_doc h w with
  | Some _ => ret tt
  | None => throw (Error "DocHandle is not ready")
  end.

(** [showErrorBanner(message, duration)] *)
Definition showErrorBanner (message : string) : M unit :=
  modify (fun w => with_banners (banners w ++ [message]) w).

(** [openDocument(documentId)]; a [Threw] completion is the rejection
    of the promise it returns. *)
Definition openDocument (documentId : string) : M unit :=
  let! w := get in
  match repo (sync w) with
  | None => throw (Error "Not connected. Call connect() first.")
  | Some _ =>
      match handle (sync w) with
      | Some _ => closeDocument
      | None => ret tt
      end;;
      try_catch
        (let! h := repo_find (fullDocId documentId) in
         modify (with_sync (set_handle (Some h)));;
         let! h := this_handle in
         handle_whenReady h;;
         let! h := this_handle in
         let! w := get in
         match handle_doc h w with
         | None => throw (Error "Document loaded but has no content")
         | Some doc =>
             modify (with_sync (set_documentId (Some h)));;
             _setupChangeHandler;;
             let! h := this_handle in
             emit "document-ready" (DocumentReady (Some doc) h false)
         end)
        (fun err =>
           showErrorBanner
             "Failed to load document. It may not exist or the network may be unavailable.";;
           emit "error" (ErrorEvent err "openDocument");;
           throw err)
  end.

(** [applyLocalEdit(position, deleteCount, insertText)] *)
Definition applyLocalEdit (position deleteCount : Z) (insertText : string) : M unit :=
  let! w := get in
  match handle (sync w) with
  | None => throw (Error "No document open")
  | Some h => handle_change h (Automerge_splice position deleteCount insertText)
  end.

(** [getContent()] *)
Definition getContent (w : World) : string :=
  match handle (sync w) with
  | None => ""
  | Some h =>
      match handle_doc h w with
      | None => ""
      | Some doc => default "" (content_text (content doc))
      end
  end.

(** [getDocumentId()] *)
Definition getDocumentId (w : World) : option string := _documentId (sync w).

(** [getHandle()] *)
Definition getHandle (w : World) : option string := handle (sync w).

(** [isConnected()] *)
Definition isConnected (w : World) : bool := _isConnected (sync w).

(** *** Callers in [src/editor.js] *)

(** [window.getAutomergeContent()], the closure [setupEditorWithBinding]
    installs for the handle it was given:
    [typeof content === 'string' ? content : (content?.toString() || '')]
    on [handle.doc()?.content]. *)
Definition getAutomergeContent (h : string) (w : World) : string :=
  match handle_doc h w with
  | None => ""
  | Some doc =>
      match content doc with
      | CString s => s
      | CText s => if decide (s = "") then "" else s
      | CUndefined => ""
      end
  end.

(** [setupEditorWithBinding(parentElement, handle, awareness)], from
    the point where [createEditor] has returned the view of the world:
    a new binding on [handle] is attached and the text of the document,
    when there is some, is loaded into the view; whatever that throws
    is caught and logged. *)
Definition setupEditorWithBinding (h : string) : M unit :=
  modify (with_binding (fun _ => AutomergeBinding_new h));;
  attach;;
  try_catch
    (let! w := get in
     match handle_doc h w with
     | None => ret tt
     | Some doc =>
         match content_text (content doc) with
         | None => ret tt
         | Some initialText =>
             if 0 <? str_length initialText
             then loadInitialContent (Some initialText)
             else ret tt
         end
     end)
    (fun _ => ret tt).

(** The [destroy] function [setupEditorWithBinding] returns:
    [binding.detach()], then the editor's own [destroy], which touches
    nothing of this world. *)
Definition destroy : M unit := detach.

End Program.

Arguments World V : clear implicits.
Arguments M V A : clear implicits.

(** ** Vocabulary of the properties *)

(** What an echo must leave alone: the binding, the view and the record
    of dispatches. *)
Definition untouched {V} (w w' : World V) : Prop :=
  binding w' = binding w /\ view w' = view w /\ dispatched w' = dispatched w.

(** A computation keeps a relation when every run ends in a world
    related to the one it started in, whether it returns or throws. *)
Definition keeps {V A} (R : World V -> World V -> Prop) (m : M V A) : Prop :=
  forall w, R w (m w).1.

(** The attachment of the binding is as before, and no handle has
    gained a listener of the binding. *)
Definition attachment_kept {V} (w w' : World V) : Prop :=
  b_handle (binding w') = b_handle (binding w) /\
  _attached (binding w') = _attached (binding w) /\
  b_changeHandler (binding w') = b_changeHandler (binding w) /\
  forall h hd' c,
    handles w' !! h = Some hd' -> BindingChangeHandler c ∈ h_listeners hd' ->
    exists hd, handles w !! h = Some hd /\ BindingChangeHandler c ∈ h_listeners hd.

(** The Detached state of the binding: not attached, no handler kept,
    no handler of the binding registered on any handle. *)
Definition detached {V} (w : World V) : Prop :=
  _attached (binding w) = false /\
  b_changeHandler (binding w) = None /\
  forall h hd c, handles w !! h = Some hd -> BindingChangeHandler c ∉ h_listeners hd.

(** The Attached state: the handler is kept, and any handler of the
    binding registered anywhere is that one, on the binding's handle. *)
Definition attached {V} (w : World V) : Prop :=
  _attached (binding w) = true /\
  exists c, b_changeHandler (binding w) = Some c /\
    forall h hd c', handles w !! h = Some hd -> BindingChangeHandler c' ∈ h_listeners hd ->
                    c' = c /\ h = b_handle (binding w).

Definition binding_consistent {V} (w : World V) : Prop := detached w \/ attached w.

(** Calls from outside: the methods of the two classes, and a change
    that reaches a handle from elsewhere. *)
Inductive Call :=
  | CallAttach
  | CallDetach
  | CallApplyLocalChange (update : ViewUpdate)
  | CallLoadInitialContent (c : option string)
  | CallOn (event : string) (callback : nat)
  | CallOff (event : string) (callback : nat)
  | CallConnect
  | CallDisconnect
  | CallCreateDocument (newId : string) (now : Z)
  | CallOpenDocument (documentId : string)
  | CallCloseDocument
  | CallApplyLocalEdit (position deleteCount : Z) (insertText : string)
  | ChangeFromElsewhere (h : string) (doc : Doc) (patches : list Patch).

Definition perform {V} `{EditorSurface V} (c : Call) (w : World V) : World V :=
  match c with
  | CallAttach => (attach w).1
  | CallDetach => (detach w).1
  | CallApplyLocalChange u => (applyLocalChange u w).1
  | CallLoadInitialContent c => (loadInitialContent c w).1
  | CallOn e cb => (on e cb w).1
  | CallOff e cb => (off e cb w).1
  | CallConnect => (connect w).1
  | CallDisconnect => (disconnect w).1
  | CallCreateDocument newId now => (createDocument newId now w).1
  | CallOpenDocument id => (openDocument id w).1
  | CallCloseDocument => (closeDocument w).1
  | CallApplyLocalEdit p d s => (applyLocalEdit p d s w).1
  | ChangeFromElsewhere h doc ps => (receive_change h doc ps w).1
  end.

(** A world at start: both objects as their constructors leave them,
    and no listener on any handle. *)
Definition started {V} (w : World V) : Prop :=
  binding w = AutomergeBinding_new (b_handle (binding w)) /\
  sync w = AutomergeSync_new (syncUrl (sync w)) None /\
  map_Forall (fun _ hd => h_listeners hd = []) (handles w).

Inductive reachable {V} `{EditorSurface V} : World V -> Prop :=
  | reachable_start w : started w -> reachable w
  | reachable_call w c : reachable w -> reachable (perform c w).

(** The store of handles and the session are as before. *)
Definition session_kept {V} (w w' : World V) : Prop :=
  handles w' = handles w /\ sync w' = sync w.

(** [s[a:b]]: the code units of [s] from index [a] up to, not
    including, index [b]. *)
Definition str_slice (s : string) (a b : Z) : string :=
  String.substring (Z.to_nat a) (Z.to_nat (b - a)) s.

(** The session has an active document whose content is the text [C]. *)
Definition has_content {V} (w : World V) (C : string) : Prop :=
  exists h doc,
    handle (sync w) = Some h /\ handle_doc h w = Some doc /\
    content_text (content doc) = Some C.

(** The repository and the connection flag of the session are as
    before. *)
Definition connection_kept {V} (w w' : World V) : Prop :=
  repo (sync w') = repo (sync w) /\
  _isConnected (sync w') = _isConnected (sync w).

(** [isConnected()] tells whether the session has a repository. *)
Definition connection_consistent {V} (w : World V) : Prop :=
  _isConnected (sync w) = true <-> is_Some (repo (sync w)).


(** A dispatch carries the remote-origin annotation. *)
Definition tagged (tr : TransactionSpec) : Prop := tr_annotations tr = Some true.

(** The second world's record of dispatches is the first one's,
    followed by tagged dispatches only. *)
Definition dispatches_tagged {V} (w w' : World V) : Prop :=
  exists l, dispatched w' = dispatched w ++ l /\ Forall tagged l.

(** The text of the document behind the handle [h]. *)
Definition text_of {V} (w : World V) (h : string) : option string :=
  doc ← handle_doc h w; content_text (content doc).



(** A patch the binding translates: a splice on the content field. *)
Definition usable (p : Patch) : Prop :=
  path p !! 0%nat = Some (PKey "content") /\ action p = "splice".

#[global] Instance usable_dec (p : Patch) : Decision (usable p).
Proof. unfold usable. apply _. Defined.



(** The callbacks subscribed to an event of the session, in the order
    [emit] calls them. *)
Definition subscribers {V} (w : World V) (event : string) : list nat :=
  default [] (_listeners (sync w) !! event).

(** The subscriptions of the session are as before. *)
Definition subscribers_kept {V} (w w' : World V) : Prop :=
  _listeners (sync w') = _listeners (sync w).

(** No event has a callback subscribed twice. *)
Definition subscribers_nodup {V} (w : World V) : Prop :=
  forall event, NoDup (subscribers w event).

(** ** A plain editor surface

    A text and a selection.  An edit outside the text is refused with a
    [RangeError]; the edits of an array are applied from the last to
    the first; a dispatch without a selection keeps the selection, cut
    to the new text. *)

Record PlainView := mkPlainView { pv_doc : string; pv_selection : SelectionRange }.

Definition apply_change (c : ChangeSpec) (s : string) : JSError + string :=
  if (cs_from c <? 0) || (cs_to c <? cs_from c) then inl (RangeError "Invalid change range")
  else
    match str_splice (Z.to_nat (cs_from c)) (Z.to_nat (cs_to c - cs_from c)) (cs_insert c) s with
    | Some s' => inr s'
    | None => inl (RangeError "Invalid change range")
    end.

Fixpoint apply_changes (cs : list ChangeSpec) (s : string) : JSError + string :=
  match cs with
  | [] => inr s
  | c :: cs' =>
      match apply_changes cs' s with
      | inl e => inl e
      | inr s' => apply_change c s'
      end
  end.

Definition plain_apply (tr : TransactionSpec) (v : PlainView) : JSError + PlainView :=
  let r := match tr_changes tr with
           | ChangeArray l => apply_changes l (pv_doc v)
           | ChangeOne c => apply_change c (pv_doc v)
           end in
  match r with
  | inl e => inl e
  | inr s =>
      let sel := default (pv_selection v) (tr_selection tr) in
      inr (mkPlainView s (mkSelection (Z.min (anchor sel) (str_length s))
                                      (Z.min (head sel) (str_length s))))
  end.

#[global] Instance PlainView_surface : EditorSurface PlainView :=
  {| state_doc := pv_doc;
     state_selection_main := pv_selection;
     view_apply := plain_apply |}.

(** A world at start around one ready document [id] with text [text]:
    a new session, a new binding on the handle of [id], a view showing
    the same text. *)
Definition plain_start (id text : string) : World PlainView :=
  mkWorld
    {[ id := mkHandle (Some (mkDoc (CString text) (Some (mkMetadata 0 1)))) [] ]}
    (AutomergeSync_new "ws://localhost:1234" None)
    (AutomergeBinding_new id)
    (mkPlainView text (mkSelection 0 0))
    0 [] [] [] [] "/" "/".

(** The same world after [connect()]. *)
Definition plain_world (id text : string) : World PlainView :=
  perform CallConnect (plain_start id text).

(** A view on a text of length 10 with the selection 8/10. *)
Definition ten_world : World PlainView :=
  with_view (mkPlainView "0123456789" (mkSelection 8 10)) (plain_world "doc1" "0123456789").

(** The world of the worked cases with [doc1] opened. *)
Definition opened_world : World PlainView :=
  perform (CallOpenDocument "doc1") (plain_world "doc1" "hello world").

(** ** Properties of the binding *)

Section BindingProperties.

Context {V : Type} `{EditorSurface V}.

Lemma untouched_refl (w : World V) : untouched w w.
Proof. by repeat split. Qed.

Lemma untouched_trans (w1 w2 w3 : World V) : untouched w1 w2 -> untouched w2 w3 -> untouched w1 w3.
Proof. intros (?&?&?) (?&?&?). repeat split; congruence. Qed.

(** With the guard set, [_handleRemoteChange] returns at once. *)
Lemma handleRemoteChange_guard_set (w : World V) doc patches :
  _isSyncingLocalChange (binding w) = true ->
  _handleRemoteChange doc patches w = (w, Returned tt).
Proof.
  intros Hg. unfold _handleRemoteChange, bind, get. by rewrite Hg.
Qed.

Lemma call_listener_guard_set (w : World V) doc patches cb :
  _isSyncingLocalChange (binding w) = true ->
  exists w', call_listener doc patches cb w = (w', Returned tt) /\ untouched w w'.
Proof.
  intros Hg. destruct cb as [c|c]; simpl.
  - eexists. split; [reflexivity|]. by repeat split.
  - rewrite handleRemoteChange_guard_set by done. eauto using untouched_refl.
Qed.

Lemma listeners_guard_set doc patches (cbs : list Callback) (w : World V) :
  _isSyncingLocalChange (binding w) = true ->
  exists w', for_each (call_listener doc patches) cbs w = (w', Returned tt)
             /\ untouched w w'.
Proof.
  revert w. induction cbs as [|cb cbs IH]; intros w Hg; simpl.
  - eauto using untouched_refl.
  - unfold bind.
    destruct (call_listener_guard_set w doc patches cb Hg) as (w1 & -> & Hu).
    destruct (IH w1) as (w2 & -> & Hu2).
    + destruct Hu as (-> & _). done.
    + eauto using untouched_trans.
Qed.

(** A mutation made while the guard is set reaches no dispatch. *)
Lemma handle_change_guard_set (w : World V) h mutator :
  _isSyncingLocalChange (binding w) = true ->
  untouched w (handle_change h mutator w).1.
Proof.
  intros Hg. unfold handle_change, bind, get, throw, modify, ret.
  destruct (handles w !! h) as [hd|]; [|apply untouched_refl].
  destruct (h_doc hd) as [d|]; [|apply untouched_refl].
  destruct (mutator d) as [e|[d' ps]]; [apply untouched_refl|].
  destruct ps as [|p ps]; [by repeat split|].
  unfold handle_emit_change, bind, get.
  match goal with
  | |- context [for_each ?f ?l ?w1] =>
      destruct (listeners_guard_set (Some d') (Some (p :: ps)) l w1 Hg) as (w2 & Hw2 & Hu)
  end.
  simpl in Hw2 |- *. rewrite Hw2. exact Hu.
Qed.

Lemma splices_guard_set (w : World V) h (rs : list ChangedRange) :
  _isSyncingLocalChange (binding w) = true ->
  untouched w
    (for_each (fun r => handle_change h
                          (Automerge_splice (fromA r) (toA r - fromA r) (inserted r)))
              rs w).1.
Proof.
  revert w. induction rs as [|r rs IH]; intros w Hg; simpl.
  - apply untouched_refl.
  - unfold bind.
    pose proof (handle_change_guard_set w h
                  (Automerge_splice (fromA r) (toA r - fromA r) (inserted r)) Hg) as Hu.
    destruct (handle_change h _ w) as [w1 [[]|e]]; simpl in Hu |- *; [|done].
    eapply untouched_trans; [exact Hu|]. apply IH.
    destruct Hu as (-> & _). done.
Qed.

(** C1 (echo suppression): whatever update [applyLocalChange] is given,
    and whatever listens on the handle, the change events that the
    forwarded edits fire while the call runs reach no dispatch of the
    view: the record of dispatches and the view are the same after the
    call as before it. *)
Theorem echo_suppression (w : World V) (update : ViewUpdate) :
  dispatched (applyLocalChange update w).1 = dispatched w /\
  view (applyLocalChange update w).1 = view w.
Proof.
  unfold applyLocalChange.
  destruct (existsb _ _); [done|].
  destruct (docChanged update); simpl; [|done].
  unfold bind, modify, try_finally, get, ret.
  set (w1 := with_binding (set_isSyncingLocalChange true) w).
  assert (Hg : _isSyncingLocalChange (binding w1) = true) by done.
  pose proof (splices_guard_set w1 (b_handle (binding w1)) (changes update) Hg) as Hu.
  destruct (for_each _ (changes update) w1) as [w2 [[]|e]];
    simpl in Hu |- *; destruct Hu as (_ & Hv & Hd); by rewrite ?Hv, ?Hd.
Qed.

(** C4 (guard release): a call of [applyLocalChange] that gets as far
    as setting the guard ends with the guard cleared, whether it
    returns or throws. *)
Theorem guard_released (w : World V) (update : ViewUpdate) :
  existsb (fun tr => truthy (annotation_isRemoteChange tr)) (transactions update) = false ->
  docChanged update = true ->
  _isSyncingLocalChange (binding (applyLocalChange update w).1) = false.
Proof.
  intros Hr Hd. unfold applyLocalChange. rewrite Hr, Hd. simpl.
  unfold bind, modify, try_finally.
  unfold get, ret.
  by destruct (for_each _ (changes update) _) as [w2 [[]|e]].
Qed.

Lemma patches_changes_app (ps qs : list Patch) :
  patches_changes (ps ++ qs) = patches_changes ps ++ patches_changes qs.
Proof.
  unfold patches_changes. rewrite foldl_app.
  generalize (foldl (fun changes patch => changes ++ patch_change patch) [] ps) as acc.
  induction qs as [|q qs IH] using rev_ind; intros acc; simpl.
  - by rewrite app_nil_r.
  - rewrite !foldl_app. simpl. rewrite IH. by rewrite app_assoc.
Qed.

Lemma patches_changes_cons (p : Patch) (ps : list Patch) :
  patches_changes (p :: ps) = patch_change p ++ patches_changes ps.
Proof. apply (patches_changes_app [p] ps). Qed.

(** With the guard clear and a content field present, a patch list
    that yields edits is dispatched as one annotated batch. *)
Lemma handleRemoteChange_patches (w : World V) (doc : Doc) (ps : list Patch) :
  _isSyncingLocalChange (binding w) = false ->
  content doc <> CUndefined ->
  patches_changes ps <> [] ->
  _handleRemoteChange (Some doc) (Some ps) w =
  view_dispatch (mkTransactionSpec (ChangeArray (patches_changes ps)) None (Some true)) w.
Proof.
  intros Hg Hc Hne. unfold _handleRemoteChange, bind, get. rewrite Hg.
  destruct (content doc); [done| |]; by destruct (patches_changes ps).
Qed.

(** Without usable patches the binding falls back to the full
    reconciliation. *)
Lemma handleRemoteChange_fallback (w : World V) (doc : Doc) (patches : option (list Patch)) :
  _isSyncingLocalChange (binding w) = false ->
  content doc <> CUndefined ->
  match patches with Some ps => patches_changes ps = [] | None => True end ->
  _handleRemoteChange (Some doc) patches w = _applyFullSync doc w.
Proof.
  intros Hg Hc Hps. unfold _handleRemoteChange, bind, get. rewrite Hg.
  destruct patches as [ps|]; [rewrite Hps|]; by destruct (content doc).
Qed.

Lemma view_dispatch_dispatched (w : World V) (tr : TransactionSpec) :
  dispatched (view_dispatch tr w).1 = dispatched w ++ [tr].
Proof. unfold view_dispatch. by destruct (view_apply _ _). Qed.

(** C3 (patch translation): with the guard clear and the content field
    present, a patch [{path: ['content', i], action: 'splice', length: d,
    value: s}] is translated to the edit [{from: i, to: i + d, insert: s}],
    and that edit is dispatched in the one annotated batch, at the
    place of its patch among the edits of the other patches. *)
Theorem patch_translation (w : World V) (doc : Doc) (before after : list Patch)
    (i d : Z) (s : string) :
  _isSyncingLocalChange (binding w) = false ->
  content doc <> CUndefined ->
  patch_change (mkPatch "splice" [PKey "content"; PIndex i] (Some d) (Some s))
    = [mkChange i (i + d) s] /\
  dispatched
    (_handleRemoteChange (Some doc)
       (Some (before ++ mkPatch "splice" [PKey "content"; PIndex i] (Some d) (Some s) :: after))
       w).1
    = dispatched w ++
      [mkTransactionSpec
         (ChangeArray (patches_changes before ++ mkChange i (i + d) s :: patches_changes after))
         None (Some true)].
Proof.
  intros Hg Hc.
  assert (Hp : patch_change (mkPatch "splice" [PKey "content"; PIndex i] (Some d) (Some s))
               = [mkChange i (i + d) s]).
  { unfold patch_change. simpl.
    destruct (decide (Some (PKey "content") <> Some (PKey "content"))); [congruence|].
    destruct (decide ("splice" = "splice")); [|congruence].
    f_equal. f_equal.
    - destruct (Z.eqb_spec d 0); [subst; lia | done].
    - by destruct (decide (s = "")). }
  split; [exact Hp|].
  rewrite handleRemoteChange_patches; [| done | done |].
  - rewrite view_dispatch_dispatched.
    by rewrite patches_changes_app, patches_changes_cons, Hp.
  - rewrite patches_changes_app, patches_changes_cons, Hp.
    by destruct (patches_changes before).
Qed.

(** C6 (selection clamping): a full reconciliation whose new text
    differs from the text of the view dispatches one replacement of the
    whole old text, with the previous anchor and head each cut to the
    length of the new text, so that both lie within it. *)
Theorem full_sync_clamps_selection (w : World V) (doc : Doc) (newText : string) :
  content_text (content doc) = Some newText ->
  newText <> state_doc (view w) ->
  let sel := state_selection_main (view w) in
  let newAnchor := Z.min (anchor sel) (str_length newText) in
  let newHead := Z.min (head sel) (str_length newText) in
  dispatched (_applyFullSync doc w).1
    = dispatched w ++
      [mkTransactionSpec
         (ChangeOne (mkChange 0 (str_length (state_doc (view w))) newText))
         (Some (mkSelection newAnchor newHead))
         (Some true)] /\
  newAnchor <= str_length newText /\
  newHead <= str_length newText.
Proof.
  intros Hc Hne. simpl. split; [|lia].
  unfold _applyFullSync. rewrite Hc. unfold bind, get.
  rewrite decide_True by done.
  by rewrite view_dispatch_dispatched.
Qed.

Lemma metadata_patches_no_changes (ps : list Patch) :
  Forall (fun p => path p !! 0%nat = Some (PKey "metadata")) ps ->
  patches_changes ps = [].
Proof.
  induction 1 as [|p ps Hp _ IH]; [done|].
  rewrite patches_changes_cons, IH. unfold patch_change.
  rewrite decide_True; [done|]. by rewrite Hp.
Qed.

(** C8 (metadata patches): with the guard clear, a non-empty patch
    list in which every patch has [path[0] = 'metadata'], arriving with
    a document whose content is the text the view already shows,
    dispatches nothing: the call returns and the world is as before. *)
Theorem metadata_patches_dispatch_nothing (w : World V) (doc : Doc) (ps : list Patch) :
  _isSyncingLocalChange (binding w) = false ->
  ps <> [] ->
  Forall (fun p => path p !! 0%nat = Some (PKey "metadata")) ps ->
  content_text (content doc) = Some (state_doc (view w)) ->
  _handleRemoteChange (Some doc) (Some ps) w = (w, Returned tt) /\
  dispatched (_handleRemoteChange (Some doc) (Some ps) w).1 = dispatched w.
Proof.
  intros Hg _ Hmeta Hc.
  assert (Heq : _handleRemoteChange (Some doc) (Some ps) w = (w, Returned tt)).
  { rewrite handleRemoteChange_fallback; [| done | | by apply metadata_patches_no_changes].
    - unfold _applyFullSync. rewrite Hc. unfold bind, get.
      destruct (decide (state_doc (view w) <> state_doc (view w))); [congruence|done].
    - intros Hu. by rewrite Hu in Hc. }
  by rewrite Heq.
Qed.

End BindingProperties.

(** ** Relations kept by computations *)

Section Keeps.

Context {V : Type} `{EditorSurface V}.
Variable R : World V -> World V -> Prop.
Hypothesis R_refl : forall w, R w w.
Hypothesis R_trans : forall w1 w2 w3, R w1 w2 -> R w2 w3 -> R w1 w3.

Lemma keeps_ret {A} (a : A) : keeps R (ret a).
Proof. intros w. apply R_refl. Qed.

Lemma keeps_throw {A} (e : JSError) : keeps R (throw (A := A) e).
Proof. intros w. apply R_refl. Qed.

Lemma keeps_get : keeps R get.
Proof. intros w. apply R_refl. Qed.

Lemma keeps_modify (f : World V -> World V) :
  (forall w, R w (f w)) -> keeps R (modify f).
Proof. intros Hf w. apply Hf. Qed.

Lemma keeps_bind {A B} (m : M V A) (k : A -> M V B) :
  keeps R m -> (forall a, keeps R (k a)) -> keeps R (bind m k).
Proof.
  intros Hm Hk w. unfold bind. specialize (Hm w).
  destruct (m w) as [w1 [a|e]]; simpl in *; [|done].
  eapply R_trans; [exact Hm|apply Hk].
Qed.

Lemma keeps_get_bind {A} (k : World V -> M V A) :
  (forall w0, keeps R (k w0)) -> keeps R (bind get k).
Proof. intros Hk. apply keeps_bind; [apply keeps_get|done]. Qed.

Lemma keeps_try_finally {A} (body : M V A) (fin : M V unit) :
  keeps R body -> keeps R fin -> keeps R (try_finally body fin).
Proof.
  intros Hb Hf w. unfold try_finally. specialize (Hb w).
  destruct (body w) as [w1 r]. specialize (Hf w1).
  destruct (fin w1) as [w2 [[]|e]]; simpl in *; eauto.
Qed.

Lemma keeps_try_catch {A} (body : M V A) (handler : JSError -> M V A) :
  keeps R body -> (forall e, keeps R (handler e)) -> keeps R (try_catch body handler).
Proof.
  intros Hb Hh w. unfold try_catch. specialize (Hb w).
  destruct (body w) as [w1 [a|e]]; simpl in *; [done|].
  eapply R_trans; [exact Hb|apply Hh].
Qed.

Lemma keeps_for_each {A} (body : A -> M V unit) (xs : list A) :
  (forall x, keeps R (body x)) -> keeps R (for_each body xs).
Proof.
  intros Hb. induction xs as [|x xs IH]; simpl.
  - apply keeps_ret.
  - apply keeps_bind; [apply Hb|done].
Qed.

End Keeps.

(** One step of a proof that a method keeps a relation, given that the
    relation is reflexive ([Hr]) and transitive ([Ht]): follow the
    structure of the body. *)
Ltac keeps_step Hr Ht :=
  match goal with
  | |- keeps _ (bind get _) => apply (keeps_get_bind _ Hr Ht); intros ?
  | |- keeps _ (bind _ _) => apply (keeps_bind _ Ht); [|intros ?]
  | |- keeps _ (ret _) => apply (keeps_ret _ Hr)
  | |- keeps _ (throw _) => apply (keeps_throw _ Hr)
  | |- keeps _ (try_finally _ _) => apply (keeps_try_finally _ Ht)
  | |- keeps _ (try_catch _ _) => apply (keeps_try_catch _ Ht); [|intros ?]
  | |- keeps _ (for_each _ _) => apply (keeps_for_each _ Hr Ht); intros ?
  | |- keeps _ (match ?x with _ => _ end) => destruct x
  end.

(** ** The attachment of the binding *)

Section Attachment.

Context {V : Type} `{EditorSurface V}.

Lemma attachment_kept_refl (w : World V) : attachment_kept w w.
Proof. repeat split; eauto. Qed.

Lemma attachment_kept_trans (w1 w2 w3 : World V) :
  attachment_kept w1 w2 -> attachment_kept w2 w3 -> attachment_kept w1 w3.
Proof.
  intros (?&?&?&H12) (?&?&?&H23). repeat split; try congruence.
  intros h hd3 c Hh Hc. destruct (H23 h hd3 c Hh Hc) as (hd2 & ? & ?). eauto.
Qed.

(** A change of the world that leaves the binding's attachment fields
    and the listeners of every handle alone. *)
Lemma attachment_kept_same (w w' : World V) :
  b_handle (binding w') = b_handle (binding w) ->
  _attached (binding w') = _attached (binding w) ->
  b_changeHandler (binding w') = b_changeHandler (binding w) ->
  handles w' = handles w ->
  attachment_kept w w'.
Proof. intros ? ? ? Hh. repeat split; try done. rewrite Hh. eauto. Qed.

Lemma emit_keeps_attachment event data : keeps (V := V) attachment_kept (emit event data).
Proof. intros w. by apply attachment_kept_same. Qed.

Lemma view_dispatch_keeps_attachment tr : keeps (V := V) attachment_kept (view_dispatch tr).
Proof.
  intros w. unfold view_dispatch.
  destruct (view_apply _ _); by apply attachment_kept_same.
Qed.

Lemma fresh_closure_keeps_attachment : keeps (V := V) attachment_kept fresh_closure.
Proof. intros w. by apply attachment_kept_same. Qed.

Lemma with_sync_keeps_attachment f :
  keeps (V := V) attachment_kept (modify (with_sync f)).
Proof. intros w. by apply attachment_kept_same. Qed.

Lemma guard_keeps_attachment b :
  keeps (V := V) attachment_kept (modify (with_binding (set_isSyncingLocalChange b))).
Proof. intros w. by apply attachment_kept_same. Qed.

(** Replacing the listeners of a handle by a part of them that has no
    new listener of the binding. *)
Lemma alter_keeps_attachment (w : World V) h (f : DocHandle -> DocHandle) :
  (forall hd c, BindingChangeHandler c ∈ h_listeners (f hd) ->
                BindingChangeHandler c ∈ h_listeners hd) ->
  attachment_kept w (with_handles (alter f h) w).
Proof.
  intros Hf. repeat split; try done. simpl. intros h' hd' c Hl Hc.
  rewrite lookup_alter in Hl. case_decide as Heq.
  - subst h'. destruct (handles w !! h) as [hd|]; simpl in Hl; [|done].
    injection Hl as <-. eauto.
  - eauto.
Qed.

Lemma insert_keeps_attachment (w : World V) h (hd : DocHandle) :
  (forall c, BindingChangeHandler c ∈ h_listeners hd ->
             exists hd0, handles w !! h = Some hd0 /\ BindingChangeHandler c ∈ h_listeners hd0) ->
  attachment_kept w (with_handles (<[h := hd]>) w).
Proof.
  intros Hf. repeat split; try done. simpl. intros h' hd' c Hl Hc.
  rewrite lookup_insert in Hl. case_decide as Heq.
  - subst h'. injection Hl as <-. eauto.
  - eauto.
Qed.

Lemma handle_on_sync_keeps_attachment h c :
  keeps (V := V) attachment_kept (handle_on h (SyncChangeHandler c)).
Proof.
  intros w. apply alter_keeps_attachment. simpl. intros hd c' Hc.
  apply elem_of_app in Hc as [Hc|Hc]; [done|].
  apply list_elem_of_singleton in Hc. done.
Qed.

Lemma handle_off_keeps_attachment h cb :
  keeps (V := V) attachment_kept (handle_off h cb).
Proof.
  intros w. apply alter_keeps_attachment. simpl. intros hd c' Hc.
  by apply list_elem_of_filter in Hc as [_ Hc].
Qed.

Create HintDb attachment.

Hint Resolve emit_keeps_attachment view_dispatch_keeps_attachment
  fresh_closure_keeps_attachment with_sync_keeps_attachment
  guard_keeps_attachment handle_on_sync_keeps_attachment
  handle_off_keeps_attachment : attachment.

Ltac keeps_attachment :=
  repeat keeps_step attachment_kept_refl attachment_kept_trans;
  auto with attachment.

Lemma applyFullSync_keeps_attachment doc : keeps (V := V) attachment_kept (_applyFullSync doc).
Proof. unfold _applyFullSync. keeps_attachment. Qed.

Lemma handleRemoteChange_keeps_attachment doc patches :
  keeps (V := V) attachment_kept (_handleRemoteChange doc patches).
Proof.
  unfold _handleRemoteChange. keeps_attachment;
    auto using applyFullSync_keeps_attachment.
Qed.

Lemma call_listener_keeps_attachment doc patches cb :
  keeps (V := V) attachment_kept (call_listener doc patches cb).
Proof.
  destruct cb; simpl; auto using handleRemoteChange_keeps_attachment with attachment.
Qed.

Lemma handle_emit_change_keeps_attachment h doc patches :
  keeps (V := V) attachment_kept (handle_emit_change h doc patches).
Proof.
  unfold handle_emit_change. keeps_attachment.
  apply call_listener_keeps_attachment.
Qed.

Lemma handle_change_keeps_attachment h mutator :
  keeps (V := V) attachment_kept (handle_change h mutator).
Proof.
  intros w. unfold handle_change. unfold bind at 1, get.
  destruct (handles w !! h) as [hd|] eqn:Hh; [|apply attachment_kept_refl].
  destruct (h_doc hd) as [d|]; [|apply attachment_kept_refl].
  destruct (mutator d) as [e|[d' ps]]; [apply attachment_kept_refl|].
  unfold bind, modify.
  apply attachment_kept_trans
    with (w2 := with_handles (<[h:=mkHandle (Some d') (h_listeners hd)]>) w).
  - apply insert_keeps_attachment. simpl. eauto.
  - destruct ps; [apply attachment_kept_refl|apply handle_emit_change_keeps_attachment].
Qed.

Lemma receive_change_keeps_attachment h doc patches :
  keeps (V := V) attachment_kept (receive_change h doc patches).
Proof.
  unfold receive_change. keeps_attachment.
  - intros w. by apply alter_keeps_attachment.
  - apply handle_emit_change_keeps_attachment.
Qed.

Hint Resolve handle_change_keeps_attachment handle_emit_change_keeps_attachment
  receive_change_keeps_attachment handleRemoteChange_keeps_attachment : attachment.

Lemma applyLocalChange_keeps_attachment update :
  keeps (V := V) attachment_kept (applyLocalChange update).
Proof.
  unfold applyLocalChange.
  destruct (existsb _ _); [keeps_attachment|].
  destruct (negb _); keeps_attachment.
Qed.

Lemma loadInitialContent_keeps_attachment c :
  keeps (V := V) attachment_kept (loadInitialContent c).
Proof.
  unfold loadInitialContent. destruct c as [c|]; [|keeps_attachment].
  destruct (decide (c = "")); keeps_attachment.
Qed.

Lemma on_keeps_attachment event cb : keeps (V := V) attachment_kept (on event cb).
Proof. unfold on. auto with attachment. Qed.

Lemma off_keeps_attachment event cb : keeps (V := V) attachment_kept (off event cb).
Proof. unfold off. auto with attachment. Qed.

Lemma this_handle_keeps_attachment : keeps (V := V) attachment_kept this_handle.
Proof. unfold this_handle. keeps_attachment. Qed.

Hint Resolve this_handle_keeps_attachment : attachment.

Lemma setupChangeHandler_keeps_attachment :
  keeps (V := V) attachment_kept _setupChangeHandler.
Proof. unfold _setupChangeHandler. keeps_attachment. Qed.

Lemma connect_keeps_attachment : keeps (V := V) attachment_kept connect.
Proof. unfold connect. keeps_attachment. Qed.

Lemma closeDocument_keeps_attachment : keeps (V := V) attachment_kept closeDocument.
Proof. unfold closeDocument. keeps_attachment. Qed.

Hint Resolve setupChangeHandler_keeps_attachment closeDocument_keeps_attachment : attachment.

Lemma disconnect_keeps_attachment : keeps (V := V) attachment_kept disconnect.
Proof. unfold disconnect. keeps_attachment. Qed.

Lemma repo_create_keeps_attachment newId :
  keeps (V := V) attachment_kept (repo_create newId).
Proof.
  unfold repo_create. keeps_attachment.
  intros w. apply insert_keeps_attachment. simpl. intros c Hc. by apply elem_of_nil in Hc.
Qed.

Hint Resolve repo_create_keeps_attachment : attachment.

Lemma createDocument_keeps_attachment newId now :
  keeps (V := V) attachment_kept (createDocument newId now).
Proof.
  unfold createDocument. keeps_attachment.
  all: intros w; by apply attachment_kept_same.
Qed.

Lemma openDocument_keeps_attachment documentId :
  keeps (V := V) attachment_kept (openDocument documentId).
Proof.
  unfold openDocument, repo_find, handle_whenReady, showErrorBanner. keeps_attachment.
  all: intros w; by apply attachment_kept_same.
Qed.

Lemma applyLocalEdit_keeps_attachment p d s :
  keeps (V := V) attachment_kept (applyLocalEdit p d s).
Proof. unfold applyLocalEdit. keeps_attachment. Qed.

(** The two states of the binding are stable under everything that
    keeps the attachment. *)
Lemma binding_consistent_kept (w w' : World V) :
  attachment_kept w w' -> binding_consistent w -> binding_consistent w'.
Proof.
  intros (Hh & Ha & Hc & Hl) [(Hd1 & Hd2 & Hd3)|(Ha1 & c & Ha2 & Ha3)].
  - left. repeat split; try congruence.
    intros h hd' c' Hl' Hin. destruct (Hl h hd' c' Hl' Hin) as (hd & Hl0 & Hin0).
    by apply (Hd3 h hd c').
  - right. split; [congruence|]. exists c. split; [congruence|].
    intros h hd' c' Hl' Hin. destruct (Hl h hd' c' Hl' Hin) as (hd & Hl0 & Hin0).
    rewrite Hh. eauto.
Qed.

End Attachment.

(** ** The Detached and Attached states *)

Section BindingStates.

Context {V : Type} `{EditorSurface V}.

(** [detach()] on a binding that is not attached does nothing. *)
Lemma detach_not_attached (w : World V) :
  _attached (binding w) = false -> detach w = (w, Returned tt).
Proof. intros Ha. unfold detach, bind, get. by rewrite Ha. Qed.

(** [detach()] from the Attached state returns in the Detached state. *)
Lemma detach_attached (w : World V) :
  attached w -> (detach w).2 = Returned tt /\ detached (detach w).1.
Proof.
  intros (Ha & c & Hc & Hl). unfold detach, bind, get, modify, handle_off.
  rewrite Ha, Hc. simpl. split; [done|]. repeat split; try done.
  simpl. intros h hd' c' Hh Hin.
  rewrite lookup_alter in Hh. case_decide as Heq.
  - destruct (handles w !! b_handle (binding w)) as [hd|] eqn:Hb; simpl in Hh; [|done].
    injection Hh as <-. simpl in Hin.
    apply list_elem_of_filter in Hin as [Hne Hin].
    destruct (Hl _ _ _ Hb Hin) as [-> _]. done.
  - destruct (Hl _ _ _ Hh Hin) as [_ ->]. done.
Qed.

Lemma detach_consistent (w : World V) :
  binding_consistent w -> detached (detach w).1.
Proof.
  intros [Hd|Ha].
  - rewrite detach_not_attached; [done|]. by destruct Hd.
  - by apply detach_attached.
Qed.

Lemma attach_consistent (w : World V) :
  binding_consistent w -> attached (attach w).1.
Proof.
  intros [(Hf & Hc & Hl)|Ha].
  - unfold attach, bind, get, fresh_closure, modify, handle_on. rewrite Hf. simpl.
    split; [done|]. exists (nextClosure w). split; [done|].
    simpl. intros h hd' c' Hh Hin.
    rewrite lookup_alter in Hh. case_decide as Heq.
    + destruct (handles w !! b_handle (binding w)) as [hd|] eqn:Hb; simpl in Hh; [|done].
      injection Hh as <-. simpl in Hin.
      apply elem_of_app in Hin as [Hin|Hin].
      * by destruct (Hl _ _ _ Hb Hin).
      * apply list_elem_of_singleton in Hin. injection Hin as ->. done.
    + by destruct (Hl _ _ _ Hh Hin).
  - unfold attach, bind, get. destruct Ha as (Hf & Hrest). rewrite Hf. simpl.
    by split.
Qed.

Lemma started_consistent (w : World V) : started w -> binding_consistent w.
Proof.
  intros (Hb & _ & Hl). left.
  repeat split; [by rewrite Hb | by rewrite Hb |].
  intros h hd c Hh Hin. rewrite (Hl h hd Hh) in Hin. by apply elem_of_nil in Hin.
Qed.

(** Every world the program can be in has the binding in one of its
    two states. *)
Lemma reachable_consistent (w : World V) : reachable w -> binding_consistent w.
Proof.
  induction 1 as [w Hs|w c _ IH]; [by apply started_consistent|].
  destruct c; simpl.
  - right. by apply attach_consistent.
  - left. by apply detach_consistent.
  - eapply binding_consistent_kept; [apply applyLocalChange_keeps_attachment|done].
  - eapply binding_consistent_kept; [apply loadInitialContent_keeps_attachment|done].
  - eapply binding_consistent_kept; [apply on_keeps_attachment|done].
  - eapply binding_consistent_kept; [apply off_keeps_attachment|done].
  - eapply binding_consistent_kept; [apply connect_keeps_attachment|done].
  - eapply binding_consistent_kept; [apply disconnect_keeps_attachment|done].
  - eapply binding_consistent_kept; [apply createDocument_keeps_attachment|done].
  - eapply binding_consistent_kept; [apply openDocument_keeps_attachment|done].
  - eapply binding_consistent_kept; [apply closeDocument_keeps_attachment|done].
  - eapply binding_consistent_kept; [apply applyLocalEdit_keeps_attachment|done].
  - eapply binding_consistent_kept; [apply receive_change_keeps_attachment|done].
Qed.

(** C9 (idempotence of detach): in every world the program can be in,
    [detach()] returns and leaves the binding Detached; a second
    [detach()] returns as well and changes nothing; and on a binding
    that was never attached the first [detach()] already changes
    nothing. *)
Theorem detach_idempotent (w : World V) :
  reachable w ->
  (detach w).2 = Returned tt /\
  detached (detach w).1 /\
  detach (detach w).1 = ((detach w).1, Returned tt) /\
  (_attached (binding w) = false -> detach w = (w, Returned tt)).
Proof.
  intros Hr. pose proof (reachable_consistent w Hr) as Hc.
  assert (Hd : detached (detach w).1) by by apply detach_consistent.
  repeat split; try apply Hd.
  - destruct Hc as [(Hf & _)|Ha].
    + by rewrite detach_not_attached.
    + by apply detach_attached.
  - apply detach_not_attached. apply Hd.
  - apply detach_not_attached.
Qed.

End BindingStates.

(** ** The connection of the session *)

Section Connection.

Context {V : Type} `{EditorSurface V}.

Lemma connection_kept_refl (w : World V) : connection_kept w w.
Proof. by split. Qed.

Lemma connection_kept_trans (w1 w2 w3 : World V) :
  connection_kept w1 w2 -> connection_kept w2 w3 -> connection_kept w1 w3.
Proof. intros [? ?] [? ?]. split; congruence. Qed.

(** Follow the body of a method; what is left are single updates of
    the world, none of which writes [repo] or [_isConnected]. *)
Ltac keeps_connection :=
  repeat keeps_step connection_kept_refl connection_kept_trans;
  try (intros ?w;
       unfold emit, handle_on, handle_off, fresh_closure, view_dispatch,
         showErrorBanner, modify;
       simpl; repeat case_match; by split).

Lemma handleRemoteChange_keeps_connection doc patches :
  keeps (V := V) connection_kept (_handleRemoteChange doc patches).
Proof. unfold _handleRemoteChange, _applyFullSync. keeps_connection. Qed.

Lemma handle_emit_change_keeps_connection h doc patches :
  keeps (V := V) connection_kept (handle_emit_change h doc patches).
Proof.
  unfold handle_emit_change.
  apply (keeps_get_bind _ connection_kept_refl connection_kept_trans). intros w.
  apply (keeps_for_each _ connection_kept_refl connection_kept_trans). intros cb.
  destruct cb; simpl; [keeps_connection|apply handleRemoteChange_keeps_connection].
Qed.

Lemma handle_change_keeps_connection h mutator :
  keeps (V := V) connection_kept (handle_change h mutator).
Proof.
  unfold handle_change. keeps_connection; apply handle_emit_change_keeps_connection.
Qed.

Lemma receive_change_keeps_connection h doc patches :
  keeps (V := V) connection_kept (receive_change h doc patches).
Proof.
  unfold receive_change. keeps_connection. apply handle_emit_change_keeps_connection.
Qed.

Lemma attach_keeps_connection : keeps (V := V) connection_kept attach.
Proof. unfold attach. keeps_connection. Qed.

Lemma detach_keeps_connection : keeps (V := V) connection_kept detach.
Proof. unfold detach. keeps_connection. Qed.

Lemma applyLocalChange_keeps_connection update :
  keeps (V := V) connection_kept (applyLocalChange update).
Proof.
  unfold applyLocalChange.
  destruct (existsb _ _); [keeps_connection|].
  destruct (negb _); keeps_connection. apply handle_change_keeps_connection.
Qed.

Lemma loadInitialContent_keeps_connection c :
  keeps (V := V) connection_kept (loadInitialContent c).
Proof.
  unfold loadInitialContent. destruct c as [c|]; [|keeps_connection].
  destruct (decide (c = "")); keeps_connection.
Qed.

Lemma on_keeps_connection event cb : keeps (V := V) connection_kept (on event cb).
Proof. unfold on. keeps_connection. Qed.

Lemma off_keeps_connection event cb : keeps (V := V) connection_kept (off event cb).
Proof.
  intros w. unfold off, modify, connection_kept. simpl.
  destruct (_listeners (sync w) !! event); done.
Qed.

Lemma closeDocument_keeps_connection : keeps (V := V) connection_kept closeDocument.
Proof. unfold closeDocument. keeps_connection. Qed.

Lemma createDocument_keeps_connection newId now :
  keeps (V := V) connection_kept (createDocument newId now).
Proof.
  unfold createDocument, repo_create, _setupChangeHandler, this_handle.
  keeps_connection; apply handle_change_keeps_connection.
Qed.

Lemma openDocument_keeps_connection documentId :
  keeps (V := V) connection_kept (openDocument documentId).
Proof.
  unfold openDocument, repo_find, handle_whenReady, _setupChangeHandler, this_handle.
  keeps_connection; apply closeDocument_keeps_connection.
Qed.

Lemma applyLocalEdit_keeps_connection p d s :
  keeps (V := V) connection_kept (applyLocalEdit p d s).
Proof. unfold applyLocalEdit. keeps_connection. apply handle_change_keeps_connection. Qed.

Lemma connection_consistent_kept (w w' : World V) :
  connection_kept w w' -> connection_consistent w -> connection_consistent w'.
Proof. intros [Hr Hc] Hw. unfold connection_consistent. by rewrite Hr, Hc. Qed.

Lemma connect_consistent (w : World V) :
  connection_consistent w -> connection_consistent (connect w).1.
Proof.
  intros Hw. unfold connect, bind, get.
  destruct (repo (sync w)) as [r|] eqn:Hr; simpl; [done|].
  unfold connection_consistent. simpl. split; eauto.
Qed.

Lemma disconnect_consistent (w : World V) :
  connection_consistent (disconnect w).1.
Proof.
  assert (Hd : forall w0 : World V,
             connection_consistent
               (bind (modify (with_sync (set_repo None)))
                  (fun _ => bind (modify (with_sync (set_isConnected false)))
                              (fun _ => emit "disconnected" NoData)) w0).1).
  { intros w0. unfold connection_consistent. simpl. split; [done|]. by intros [? ?]. }
  unfold disconnect. unfold bind at 1, get.
  unfold bind at 1.
  destruct (match handle (sync w) with Some _ => closeDocument | None => ret tt end w)
    as [w1 [[]|e]] eqn:Hc.
  - apply Hd.
  - exfalso. destruct (handle (sync w)); [|done].
    unfold closeDocument, bind, get in Hc.
    destruct (handle (sync w)); [|done].
    by destruct (_changeHandler (sync w)).
Qed.

(** In every world the program can be in, [isConnected()] is true
    exactly when the session has a repository, which is what
    [createDocument] and [openDocument] test. *)
Lemma reachable_connection (w : World V) : reachable w -> connection_consistent w.
Proof.
  induction 1 as [w (_ & Hs & _)|w c _ IH].
  - unfold connection_consistent. rewrite Hs. simpl. split; [done|]. by intros [? ?].
  - destruct c; simpl.
    + eapply connection_consistent_kept; [apply attach_keeps_connection|done].
    + eapply connection_consistent_kept; [apply detach_keeps_connection|done].
    + eapply connection_consistent_kept; [apply applyLocalChange_keeps_connection|done].
    + eapply connection_consistent_kept; [apply loadInitialContent_keeps_connection|done].
    + eapply connection_consistent_kept; [apply on_keeps_connection|done].
    + eapply connection_consistent_kept; [apply off_keeps_connection|done].
    + by apply connect_consistent.
    + apply disconnect_consistent.
    + eapply connection_consistent_kept; [apply createDocument_keeps_connection|done].
    + eapply connection_consistent_kept; [apply openDocument_keeps_connection|done].
    + eapply connection_consistent_kept; [apply closeDocument_keeps_connection|done].
    + eapply connection_consistent_kept; [apply applyLocalEdit_keeps_connection|done].
    + eapply connection_consistent_kept; [apply receive_change_keeps_connection|done].
Qed.

End Connection.

(** ** Properties of the session *)

Section SessionProperties.

Context {V : Type} `{EditorSurface V}.

Lemma session_kept_refl (w : World V) : session_kept w w.
Proof. by split. Qed.

Lemma session_kept_trans (w1 w2 w3 : World V) :
  session_kept w1 w2 -> session_kept w2 w3 -> session_kept w1 w3.
Proof. intros [? ?] [? ?]. split; congruence. Qed.

Lemma emit_keeps_session event data : keeps (V := V) session_kept (emit event data).
Proof. intros w. by split. Qed.

Lemma view_dispatch_keeps_session tr : keeps (V := V) session_kept (view_dispatch tr).
Proof. intros w. unfold view_dispatch. by destruct (view_apply _ _). Qed.

Ltac keeps_session :=
  repeat keeps_step session_kept_refl session_kept_trans;
  auto using emit_keeps_session, view_dispatch_keeps_session.

Lemma handleRemoteChange_keeps_session doc patches :
  keeps (V := V) session_kept (_handleRemoteChange doc patches).
Proof. unfold _handleRemoteChange, _applyFullSync. keeps_session. Qed.

(** Announcing a change to the listeners changes neither a handle nor
    the session. *)
Lemma handle_emit_change_keeps_session h doc patches :
  keeps (V := V) session_kept (handle_emit_change h doc patches).
Proof.
  unfold handle_emit_change.
  apply (keeps_get_bind _ session_kept_refl session_kept_trans). intros w.
  apply (keeps_for_each _ session_kept_refl session_kept_trans). intros cb.
  destruct cb; simpl; auto using emit_keeps_session, handleRemoteChange_keeps_session.
Qed.

Lemma substring_all (s : string) : String.substring 0 (String.length s) s = s.
Proof. induction s as [|c s IH]; simpl; [done|by rewrite IH]. Qed.

Lemma str_drop_spec (d : nat) (s : string) :
  (d <= String.length s)%nat ->
  str_drop d s = Some (String.substring d (String.length s - d) s).
Proof.
  revert s. induction d as [|d IH]; intros s Hd; simpl.
  - by rewrite Nat.sub_0_r, substring_all.
  - destruct s as [|c s]; simpl in *; [lia|]. apply IH. lia.
Qed.

(** The splice, one code unit at a time, is the replacement of a
    slice. *)
Lemma str_splice_spec (i d : nat) (ins s : string) :
  (i + d <= String.length s)%nat ->
  str_splice i d ins s =
  Some (String.substring 0 i s +:+ ins +:+
        String.substring (i + d) (String.length s - (i + d)) s).
Proof.
  revert s. induction i as [|i IH]; intros s Hd.
  - simpl str_splice. rewrite str_drop_spec by lia. simpl.
    by destruct s.
  - destruct s as [|c s]; simpl in Hd; [lia|].
    simpl. rewrite IH by lia. done.
Qed.

Lemma Automerge_splice_in_range (doc : Doc) (C : string) (p d : Z) (s : string) :
  content_text (content doc) = Some C ->
  0 <= p -> 0 <= d -> p + d <= str_length C ->
  exists doc',
    Automerge_splice p d s doc = inr (doc', splice_patches p d s) /\
    content_text (content doc') =
      Some (str_slice C 0 p +:+ s +:+ str_slice C (p + d) (str_length C)).
Proof.
  intros Hc Hp Hd Hr. unfold Automerge_splice, str_length in *. rewrite Hc.
  replace (p <? 0) with false by lia. replace (d <? 0) with false by lia. simpl.
  rewrite str_splice_spec by lia.
  eexists. split; [reflexivity|]. simpl.
  unfold str_slice.
  replace (Z.to_nat (p - 0)) with (Z.to_nat p) by lia.
  replace (Z.to_nat (p + d)) with (Z.to_nat p + Z.to_nat d)%nat by lia.
  replace (Z.to_nat (Z.of_nat (String.length C) - (p + d)))
    with (String.length C - (Z.to_nat p + Z.to_nat d))%nat by lia.
  by destruct (content doc).
Qed.

(** C2 (round trip): on a session whose active document has the text
    [C], after [applyLocalEdit(p, d, s)] with [0 <= p], [0 <= d] and
    [p + d <= length(C)], [getContent()] is [C[0:p] + s + C[p+d:]]. *)
Theorem round_trip (w : World V) (C : string) (p d : Z) (s : string) :
  has_content w C ->
  0 <= p -> 0 <= d -> p + d <= str_length C ->
  getContent (applyLocalEdit p d s w).1 =
  str_slice C 0 p +:+ s +:+ str_slice C (p + d) (str_length C).
Proof.
  intros (h & doc & Hh & Hdoc & Hc) Hp Hd Hr.
  destruct (Automerge_splice_in_range doc C p d s Hc Hp Hd Hr) as (doc' & Hs & Hc').
  unfold applyLocalEdit, handle_change, bind, get. rewrite Hh.
  unfold handle_doc in Hdoc.
  destruct (handles w !! h) as [hd|] eqn:Hl; simpl in Hdoc; [|done].
  rewrite Hdoc, Hs. unfold modify.
  set (w1 := with_handles (<[h:=mkHandle (Some doc') (h_listeners hd)]>) w).
  assert (Hg : getContent w1 = str_slice C 0 p +:+ s +:+ str_slice C (p + d) (str_length C)).
  { unfold getContent, handle_doc. simpl. rewrite Hh, lookup_insert_eq. simpl.
    by rewrite Hc'. }
  destruct (splice_patches p d s) as [|patch patches]; [done|].
  pose proof (handle_emit_change_keeps_session h doc' (patch :: patches) w1) as [Hk1 Hk2].
  unfold getContent, handle_doc in *. by rewrite Hk1, Hk2.
Qed.

Lemma startsWith_scheme (id : string) : startsWith scheme (scheme +:+ id) = true.
Proof.
  unfold startsWith, scheme. by destruct id.
Qed.


(** Two worlds with the same fields are the same world. *)
Lemma world_eq (w1 w2 : World V) :
  handles w1 = handles w2 -> sync w1 = sync w2 -> binding w1 = binding w2 ->
  view w1 = view w2 -> nextClosure w1 = nextClosure w2 -> emitted w1 = emitted w2 ->
  delivered w1 = delivered w2 -> dispatched w1 = dispatched w2 ->
  banners w1 = banners w2 -> pathname w1 = pathname w2 -> address w1 = address w2 ->
  w1 = w2.
Proof. destruct w1, w2; simpl; intros; by subst. Qed.

(** [createDocument()] on a connected session, step by step. *)
Lemma createDocument_connected (w : World V) (newId : string) (now : Z) :
  is_Some (repo (sync w)) ->
  let snapshot := mkDoc (CString "") (Some (mkMetadata now 1)) in
  let ready := DocumentReady (Some snapshot) newId true in
  createDocument newId now w =
  (mkWorld
     (<[newId := mkHandle (Some snapshot) [SyncChangeHandler (nextClosure w)]]> (handles w))
     (set_changeHandler (Some (nextClosure w))
        (set_documentId (Some newId) (set_handle (Some newId) (sync w))))
     (binding w) (view w) (S (nextClosure w))
     (emitted w ++ [("document-ready", ready)])
     (delivered w ++
        ((fun c => (c, "document-ready", ready)) <$>
           default [] (_listeners (sync w) !! "document-ready")))
     (dispatched w) (banners w) (pathname w)
     (pathname w +:+ "?doc=" +:+ newId),
   Returned (Some newId)).
Proof.
  intros [r Hr]. unfold createDocument, bind, get. rewrite Hr.
  unfold repo_create, modify, bind, ret, this_handle, get, bind, ret. simpl.
  unfold handle_change, bind, get. simpl. rewrite lookup_insert_eq. simpl.
  unfold modify, handle_emit_change, listeners_of, bind, get. simpl.
  rewrite lookup_insert_eq. simpl.
  unfold ret, _setupChangeHandler, bind, fresh_closure, modify, this_handle, bind, get,
    ret, handle_on, modify, emit, modify. simpl.
  unfold handle_doc. simpl.
  rewrite lookup_alter_eq, lookup_insert_eq. simpl.
  f_equal. apply world_eq; simpl; try done.
  by rewrite alter_insert_eq, !insert_insert_eq.
Qed.

(** C7 (createDocument): on a session without a repository (which is,
    by [reachable_connection], a session that is not connected) the
    call throws the not-connected error, the one the specification
    classes as IllegalState, and changes nothing.  On a connected
    session it returns the new identifier; the new document has content
    [""] and metadata [{created: now, version: 1}], is the active
    document, and one [document-ready] event is emitted, carrying the
    snapshot, the handle and [isNew: true]. *)
Theorem createDocument_effect (w : World V) (newId : string) (now : Z) :
  match repo (sync w) with
  | None =>
      createDocument newId now w =
      (w, Threw (Error "Not connected. Call connect() first."))
  | Some _ =>
      let w' := (createDocument newId now w).1 in
      let snapshot := mkDoc (CString "") (Some (mkMetadata now 1)) in
      (createDocument newId now w).2 = Returned (Some newId) /\
      handle_doc newId w' = Some snapshot /\
      getHandle w' = Some newId /\
      getDocumentId w' = Some newId /\
      getContent w' = "" /\
      emitted w' = emitted w ++ [("document-ready", DocumentReady (Some snapshot) newId true)]
  end.
Proof.
  destruct (repo (sync w)) as [r|] eqn:Hr.
  - rewrite createDocument_connected by (by rewrite Hr).
    unfold getHandle, getDocumentId, getContent, handle_doc. simpl.
    rewrite lookup_insert_eq. simpl. done.
  - unfold createDocument, bind, get. by rewrite Hr.
Qed.

(** [closeDocument()] with an active document and its handler. *)
Lemma closeDocument_active (w : World V) (h : string) (c : nat) :
  handle (sync w) = Some h ->
  _changeHandler (sync w) = Some c ->
  closeDocument w =
  emit "document-closed" NoData
    (with_sync (set_documentId None)
       (with_sync (set_handle None)
          (with_sync (set_changeHandler None)
             (with_handles
                (alter (fun hd => mkHandle (h_doc hd)
                                   (filter (fun cb => cb <> SyncChangeHandler c) (h_listeners hd))) h)
                w)))).
Proof.
  intros Hh Hc. unfold closeDocument, bind, get. rewrite Hh, Hc. reflexivity.
Qed.

(** Opening a document first closes the active one. *)
Lemma openDocument_closes_first (w : World V) (x : string) :
  is_Some (repo (sync w)) ->
  openDocument x w = openDocument x (closeDocument w).1.
Proof.
  intros [r Hr].
  destruct (handle (sync w)) as [h|] eqn:Hh.
  - assert (Hc : exists w', closeDocument w = (w', Returned tt) /\
                            repo (sync w') = Some r /\ handle (sync w') = None).
    { unfold closeDocument, bind, get. rewrite Hh.
      destruct (_changeHandler (sync w)); simpl; eexists; (split; [reflexivity|]); by simpl. }
    destruct Hc as (w' & Hw' & Hr' & Hh').
    unfold openDocument, bind, get. rewrite Hr, Hh, Hw'. simpl. by rewrite Hr', Hh'.
  - assert (Hc : closeDocument w = (w, Returned tt)).
    { unfold closeDocument, bind, get. by rewrite Hh. }
    by rewrite Hc.
Qed.

(** [openDocument(x)] without an active document, when [x] resolves
    to a ready document. *)
Lemma openDocument_resolved (w : World V) (x : string) (docx : Doc) :
  is_Some (repo (sync w)) ->
  handle (sync w) = None ->
  handle_doc (documentIdOf (fullDocId x)) w = Some docx ->
  let dx := documentIdOf (fullDocId x) in
  openDocument x w =
  emit "document-ready" (DocumentReady (Some docx) dx false)
    (with_handles
       (alter (fun hd => mkHandle (h_doc hd)
                           (h_listeners hd ++ [SyncChangeHandler (nextClosure w)])) dx)
       (with_sync (set_changeHandler (Some (nextClosure w)))
          (with_nextClosure (S (nextClosure w))
             (with_sync (set_documentId (Some dx))
                (with_sync (set_handle (Some dx)) w))))).
Proof.
  intros [r Hr] Hh Hdoc. simpl.
  unfold openDocument, bind, get. rewrite Hr, Hh. 
  unfold try_catch, ret, repo_find, bind, get.
  pose proof Hdoc as Hdoc'. unfold handle_doc in Hdoc'.
  destruct (handles w !! documentIdOf (fullDocId x)) as [hd|] eqn:Hl; [|done].
  unfold ret, modify, this_handle, bind, get. simpl.
  unfold handle_whenReady, bind, get. 
  replace (handle_doc _ _) with (Some docx). simpl.
  replace (handle_doc _ _) with (Some docx). simpl.
  reflexivity.
Qed.

Lemma filter_out_self (cb : Callback) : filter (fun c => c <> cb) [cb] = [].
Proof. rewrite filter_cons. by destruct (decide (cb <> cb)). Qed.

(** A change of a handle without listeners reaches nobody. *)
Lemma receive_change_no_listener (w : World V) h doc patches :
  listeners_of w h = [] ->
  emitted (receive_change h doc patches w).1 = emitted w /\
  delivered (receive_change h doc patches w).1 = delivered w.
Proof.
  intros Hl. unfold receive_change, bind, modify, handle_emit_change, bind, get. simpl.
  unfold listeners_of in *. simpl. rewrite lookup_alter_eq.
  destruct (handles w !! h) as [hd|]; simpl in *; [rewrite Hl|]; done.
Qed.

End SessionProperties.

(** ** Worked cases on the plain surface *)

(** The start world is a start world, so that what follows from it is
    reachable. *)
Lemma plain_start_started (id text : string) : started (plain_start id text).
Proof.
  repeat split. apply map_Forall_singleton. reflexivity.
Qed.

Lemma plain_world_reachable (id text : string) : reachable (plain_world id text).
Proof. apply reachable_call, reachable_start, plain_start_started. Defined.

(** Replacing [world] in ["hello world"] through the session. *)
Lemma round_trip_witness :
  getContent
    (applyLocalEdit 6 5 "there"
       (perform (CallOpenDocument "doc1") (plain_world "doc1" "hello world"))).1
  = str_slice "hello world" 0 6 +:+ "there" +:+
    str_slice "hello world" (6 + 5) (str_length "hello world").
Proof.
  apply round_trip; [|lia|lia|unfold str_length; simpl; lia].
  exists "doc1", (mkDoc (CString "hello world") (Some (mkMetadata 0 1))).
  repeat split; vm_compute; reflexivity.
Defined.

(** A remote replacement of five code units at the start. *)
Lemma patch_translation_witness :
  patch_change (mkPatch "splice" [PKey "content"; PIndex 0] (Some 5) (Some "hi"))
    = [mkChange 0 (0 + 5) "hi"] /\
  dispatched
    (_handleRemoteChange
       (Some (mkDoc (CString "hi world") None))
       (Some ([] ++ mkPatch "splice" [PKey "content"; PIndex 0] (Some 5) (Some "hi") :: []))
       (plain_world "doc1" "hello world")).1
    = dispatched (plain_world "doc1" "hello world") ++
      [mkTransactionSpec
         (ChangeArray (patches_changes [] ++ mkChange 0 (0 + 5) "hi" :: patches_changes []))
         None (Some true)].
Proof.
  apply patch_translation; [reflexivity|discriminate].
Defined.

(** A local edit past the end of the text: the engine throws, and the
    guard is clear afterwards. *)
Lemma guard_released_witness :
  (applyLocalChange (mkUpdate [mkTransaction None] true [mkRange 50 60 50 51 "x"])
     (plain_world "doc1" "hello world")).2
    = Threw (RangeError "splice: range outside the text") /\
  _isSyncingLocalChange
    (binding
       (applyLocalChange (mkUpdate [mkTransaction None] true [mkRange 50 60 50 51 "x"])
          (plain_world "doc1" "hello world")).1)
    = false.
Proof.
  split; [vm_compute; reflexivity|].
  apply guard_released; reflexivity.
Defined.


(** The case of the specification: old text of length 10, selection
    8/10, new text of length 5. *)
Lemma full_sync_clamps_selection_witness :
  dispatched (_applyFullSync (mkDoc (CString "abcde") None) ten_world).1
    = dispatched ten_world ++
      [mkTransactionSpec (ChangeOne (mkChange 0 10 "abcde"))
                         (Some (mkSelection 5 5)) (Some true)] /\
  Z.min 8 5 <= 5 /\ Z.min 10 5 <= 5.
Proof.
  refine (full_sync_clamps_selection ten_world (mkDoc (CString "abcde") None) "abcde"
            eq_refl _).
  intros Hn. vm_compute in Hn. discriminate Hn.
Defined.

(** A change of the metadata alone, the view showing the content. *)
Lemma metadata_patches_witness :
  dispatched
    (_handleRemoteChange
       (Some (mkDoc (CString "hello world") (Some (mkMetadata 7 2))))
       (Some [mkPatch "put" [PKey "metadata"; PKey "version"] None None])
       (plain_world "doc1" "hello world")).1
  = dispatched (plain_world "doc1" "hello world").
Proof.
  refine (proj2 (metadata_patches_dispatch_nothing (plain_world "doc1" "hello world")
                   (mkDoc (CString "hello world") (Some (mkMetadata 7 2)))
                   [mkPatch "put" [PKey "metadata"; PKey "version"] None None] _ _ _ _)).
  - reflexivity.
  - discriminate.
  - repeat constructor.
  - reflexivity.
Defined.

(** Detaching twice after an attach, and detaching a binding that was
    never attached. *)
Lemma detach_idempotent_witness :
  detached (detach (perform CallAttach (plain_world "doc1" "hello world"))).1 /\
  detach (plain_world "doc1" "hello world")
    = (plain_world "doc1" "hello world", Returned tt).
Proof.
  split.
  - refine (proj1 (proj2 (detach_idempotent
              (perform CallAttach (plain_world "doc1" "hello world")) _))).
    apply reachable_call, plain_world_reachable.
  - refine (proj2 (proj2 (proj2 (detach_idempotent
              (plain_world "doc1" "hello world") _))) _).
    + apply plain_world_reachable.
    + reflexivity.
Defined.


(** A local edit with both the session and the binding listening on the
    handle: the change event fires (the session emits [remote-change]),
    the document has the new text, and nothing is dispatched to the
    view. *)
Example echo_case :
  let w := perform CallAttach
             (perform (CallOpenDocument "doc1") (plain_world "doc1" "hello world")) in
  let w' := (applyLocalChange
               (mkUpdate [mkTransaction None] true [mkRange 0 5 0 2 "hi"]) w).1 in
  listeners_of w "doc1" = [SyncChangeHandler 0; BindingChangeHandler 1] /\
  getContent w' = "hi world" /\
  length (emitted w') = S (length (emitted w)) /\
  dispatched w' = [].
Proof. vm_compute. by repeat split. Qed.

(** The same change arriving from elsewhere is dispatched. *)
Example remote_case :
  let w := perform CallAttach
             (perform (CallOpenDocument "doc1") (plain_world "doc1" "hello world")) in
  let w' := (receive_change "doc1" (mkDoc (CString "hi world") None)
               [mkPatch "splice" [PKey "content"; PIndex 0] (Some 5) (Some "hi")] w).1 in
  dispatched w' = [mkTransactionSpec (ChangeArray [mkChange 0 5 "hi"]) None (Some true)] /\
  state_doc (view w') = "hi world".
Proof. vm_compute. by repeat split. Qed.

(** [createDocument()] does not close a document that is active: the
    handler registered for it stays on its handle. *)
Example createDocument_keeps_earlier_subscription :
  let w := perform (CallCreateDocument "fresh" 42)
             (perform (CallOpenDocument "doc1") (plain_world "doc1" "hello world")) in
  getHandle w = Some "fresh" /\
  listeners_of w "doc1" = [SyncChangeHandler 0] /\
  listeners_of w "fresh" = [SyncChangeHandler 1].
Proof. vm_compute. by repeat split. Qed.

(** ** Every method, followed through its body *)

Create HintDb methods.

#[global] Hint Unfold attach detach applyLocalChange loadInitialContent on off connect
  disconnect createDocument openDocument closeDocument applyLocalEdit
  receive_change handle_change handle_emit_change call_listener
  _handleRemoteChange _applyFullSync _setupChangeHandler this_handle
  repo_create repo_find handle_whenReady showErrorBanner
  setupEditorWithBinding destroy : methods.

(** Follow the body of any method down to the single updates of the
    world, which are left to [leaf]. *)
Ltac keeps_methods Hr Ht leaf :=
  repeat first
    [ keeps_step Hr Ht
    | progress autounfold with methods
    | progress cbv beta zeta ];
  leaf.

Section Tagged.

Context {V : Type} `{EditorSurface V}.

Lemma dispatches_tagged_refl (w : World V) : dispatches_tagged w w.
Proof. exists []. by rewrite app_nil_r. Qed.

Lemma dispatches_tagged_trans (w1 w2 w3 : World V) :
  dispatches_tagged w1 w2 -> dispatches_tagged w2 w3 -> dispatches_tagged w1 w3.
Proof.
  intros (l1 & H1 & F1) (l2 & H2 & F2). exists (l1 ++ l2).
  split; [by rewrite H2, H1, app_assoc|by apply Forall_app].
Qed.

Lemma dispatches_tagged_same (w w' : World V) :
  dispatched w' = dispatched w -> dispatches_tagged w w'.
Proof. intros Hd. exists []. by rewrite app_nil_r. Qed.

Lemma view_dispatch_tagged (tr : TransactionSpec) :
  tagged tr -> keeps (V := V) dispatches_tagged (view_dispatch tr).
Proof.
  intros Ht w. exists [tr]. split; [|by constructor].
  unfold view_dispatch. by destruct (view_apply _ _).
Qed.

Ltac tagged_leaf :=
  first
    [ by apply view_dispatch_tagged
    | intros ?w; apply dispatches_tagged_same;
      unfold emit, handle_on, handle_off, fresh_closure, modify;
      simpl; repeat case_match; done ].

Lemma perform_dispatches_tagged (c : Call) (w : World V) :
  dispatches_tagged w (perform c w).
Proof.
  destruct c; unfold perform.
  all: match goal with |- dispatches_tagged _ (?m _).1 =>
         revert w; change (keeps dispatches_tagged m) end.
  all: keeps_methods dispatches_tagged_refl dispatches_tagged_trans tagged_leaf.
Qed.

(** An update with a transaction tagged as remote is not forwarded. *)
Lemma applyLocalChange_ignores_tagged (update : ViewUpdate) (w : World V) (a : option bool) :
  a = Some true ->
  mkTransaction a ∈ transactions update ->
  applyLocalChange update w = (w, Returned false).
Proof.
  intros -> Hin. unfold applyLocalChange.
  assert (He : existsb (fun tr => truthy (annotation_isRemoteChange tr))
                 (transactions update) = true).
  { apply existsb_exists. exists (mkTransaction (Some true)).
    split; [by apply list_elem_of_In|done]. }
  by rewrite He.
Qed.

(** X3: no call dispatches an untagged transaction, and an update
    that contains a transaction with the tag of any of them is ignored
    by [applyLocalChange]: what the binding writes to the view never
    comes back as a local edit. *)
Theorem remote_dispatches_are_not_forwarded (c : Call) (w : World V) :
  exists l,
    dispatched (perform c w) = dispatched w ++ l /\
    forall tr, tr ∈ l ->
      tr_annotations tr = Some true /\
      forall update w',
        mkTransaction (tr_annotations tr) ∈ transactions update ->
        applyLocalChange update w' = (w', Returned false).
Proof.
  destruct (perform_dispatches_tagged c w) as (l & Hl & Ht).
  exists l. split; [done|]. intros tr Hin.
  rewrite Forall_forall in Ht. specialize (Ht tr Hin).
  split; [exact Ht|]. intros update w' Hu.
  by apply (applyLocalChange_ignores_tagged update w' (tr_annotations tr)).
Qed.

End Tagged.

(** ** Further properties of the binding *)

Section BindingFurther.

Context {V : Type} `{EditorSurface V}.

Lemma filter_out_absent (cb : Callback) (l : list Callback) :
  cb ∉ l -> filter (fun c => c <> cb) l = l.
Proof.
  induction l as [|x l IH]; intros Hn; [done|].
  rewrite filter_cons. apply not_elem_of_cons in Hn as [Hx Hl].
  rewrite decide_True by done. by rewrite IH.
Qed.

Lemma filter_out_last (cb : Callback) (l : list Callback) :
  cb ∉ l -> filter (fun c => c <> cb) (l ++ [cb]) = l.
Proof.
  intros Hn. rewrite filter_app, filter_out_absent by done.
  rewrite filter_cons. destruct (decide (cb <> cb)); [done|].
  by rewrite filter_nil, app_nil_r.
Qed.

(** X1: attaching a Detached binding and detaching it again restores
    the store of handles, listener lists included, and the fields of
    the binding; both calls return. *)
Theorem attach_detach_round_trip (w : World V) :
  detached w ->
  (attach w).2 = Returned tt /\
  (detach (attach w).1).2 = Returned tt /\
  handles (detach (attach w).1).1 = handles w /\
  binding (detach (attach w).1).1 = binding w.
Proof.
  intros (Ha & Hc & Hl).
  unfold attach, detach, bind, get, fresh_closure, modify, handle_on, handle_off.
  rewrite Ha. simpl. repeat split.
  - apply map_eq. intros h.
    destruct (decide (b_handle (binding w) = h)) as [<-|Hne];
      [|by rewrite !lookup_alter_ne].
    rewrite !lookup_alter_eq.
    destruct (handles w !! b_handle (binding w)) as [hd|] eqn:Hh; [|done].
    simpl. f_equal. destruct hd as [d ls]. simpl. f_equal.
    apply filter_out_last. apply (Hl _ _ _ Hh).
  - clear Hl. revert Ha Hc. destruct (binding w) as [bh g ch at_]. simpl.
    by intros -> ->.
Qed.

(** X2: [attach()] on an attached binding does nothing: in every
    world the program can be in, a second [attach()] returns and leaves
    the world as the first one left it, Attached. *)
Theorem attach_idempotent (w : World V) :
  reachable w ->
  (attach w).2 = Returned tt /\
  attached (attach w).1 /\
  attach (attach w).1 = ((attach w).1, Returned tt).
Proof.
  intros Hr. pose proof (attach_consistent w (reachable_consistent w Hr)) as Ha.
  split; [|split; [exact Ha|]].
  - unfold attach, bind, get. by destruct (_attached (binding w)).
  - destruct Ha as (Hf & _). unfold attach at 1. unfold bind, get. by rewrite Hf.
Qed.

End BindingFurther.

Section Forwarding.

Context {V : Type} `{EditorSurface V}.

Lemma text_of_Some (w : World V) h C :
  text_of w h = Some C <->
  exists doc, handle_doc h w = Some doc /\ content_text (content doc) = Some C.
Proof.
  unfold text_of. destruct (handle_doc h w) as [doc|]; simpl.
  - split; [eauto|]. by intros (doc' & [= <-] & ?).
  - split; [done|]. by intros (doc' & ? & ?).
Qed.





End Forwarding.

Section Patches.

Context {V : Type} `{EditorSurface V}.

Lemma patch_change_usable (p : Patch) :
  usable p -> exists c, patch_change p = [c].
Proof.
  intros [Hp Ha]. unfold patch_change.
  destruct (decide (path p !! 0%nat <> Some (PKey "content"))); [done|].
  destruct (decide (action p = "splice")); [eauto|done].
Qed.

Lemma patch_change_unusable (p : Patch) : ~ usable p -> patch_change p = [].
Proof.
  intros Hn. unfold patch_change.
  destruct (decide (path p !! 0%nat <> Some (PKey "content"))) as [|Hp]; [done|].
  destruct (decide (action p = "splice")) as [Ha|]; [|done].
  destruct Hn. split; [|done]. by destruct (decide (path p !! 0%nat = Some (PKey "content"))).
Qed.

Lemma patches_changes_all_usable (l : list Patch) :
  Forall usable l -> length (patches_changes l) = length l.
Proof.
  induction 1 as [|p l Hp _ IH]; [done|].
  rewrite patches_changes_cons, length_app, IH.
  by destruct (patch_change_usable p Hp) as [c ->].
Qed.

(** X5: only splices on the content field are translated: the batch
    has one edit for each such patch, in order, and every other patch
    (a deletion, a change of another field) adds nothing to it.  A
    change none of whose patches is usable is handled by the full
    reconciliation. *)
Theorem only_content_splices_are_translated (ps : list Patch) :
  patches_changes ps = patches_changes (filter usable ps) /\
  length (patches_changes ps) = length (filter usable ps) /\
  forall (w : World V) (doc : Doc),
    _isSyncingLocalChange (binding w) = false ->
    content doc <> CUndefined ->
    filter usable ps = [] ->
    _handleRemoteChange (Some doc) (Some ps) w = _applyFullSync doc w.
Proof.
  assert (He : patches_changes ps = patches_changes (filter usable ps)).
  { induction ps as [|p ps IH]; [done|].
    rewrite filter_cons. destruct (decide (usable p)) as [Hu|Hu].
    - by rewrite !patches_changes_cons, IH.
    - by rewrite patches_changes_cons, patch_change_unusable, IH. }
  split; [exact He|]. split.
  - rewrite He. apply patches_changes_all_usable.
    apply Forall_forall. intros p Hp. by apply list_elem_of_filter in Hp as [Hu _].
  - intros w doc Hg Hc Hf. apply handleRemoteChange_fallback; [done|done|].
    by rewrite He, Hf.
Qed.

End Patches.

(** ** Further properties of the session *)

Section SessionFurther.

Context {V : Type} `{EditorSurface V}.

Lemma closeDocument_returns (w : World V) :
  exists w', closeDocument w = (w', Returned tt) /\
             handle (sync w') = None /\
             repo (sync w') = repo (sync w) /\
             _isConnected (sync w') = _isConnected (sync w) /\
             emitted w' = emitted w ++
               match handle (sync w) with
               | Some _ => [("document-closed", NoData)]
               | None => []
               end /\
             (handle (sync w) = None -> w' = w).
Proof.
  unfold closeDocument, bind, get.
  destruct (handle (sync w)) as [h|] eqn:Hh.
  - destruct (_changeHandler (sync w)); simpl;
      eexists; (split; [reflexivity|]); simpl; by repeat split.
  - exists w. rewrite app_nil_r. by repeat split.
Qed.

(** X6: [closeDocument()] always returns and leaves the session
    without a document: [getHandle()] is [null], [getContent()] is
    the empty string and [applyLocalEdit] throws without changing
    anything.  A second [closeDocument()], or one on a session without
    a document, changes nothing and emits nothing. *)
Theorem closeDocument_idempotent (w : World V) (p d : Z) (s : string) :
  (closeDocument w).2 = Returned tt /\
  getHandle (closeDocument w).1 = None /\
  getContent (closeDocument w).1 = "" /\
  applyLocalEdit p d s (closeDocument w).1
    = ((closeDocument w).1, Threw (Error "No document open")) /\
  closeDocument (closeDocument w).1 = ((closeDocument w).1, Returned tt) /\
  (getHandle w = None -> closeDocument w = (w, Returned tt)).
Proof.
  destruct (closeDocument_returns w) as (w' & Hw' & Hh & _ & _ & _ & Hn).
  rewrite Hw'. simpl.
  split; [done|]. split; [done|].
  split; [by unfold getContent; rewrite Hh|].
  split; [by unfold applyLocalEdit, bind, get; rewrite Hh|].
  split.
  - unfold closeDocument, bind, get. by rewrite Hh.
  - intros Hg. by rewrite (Hn Hg).
Qed.




(** X8: [connect()] is idempotent: it returns with a repository in
    place, emitting [connected] when there was none, and a further
    [connect()] changes nothing and emits nothing. *)
Theorem connect_idempotent (w : World V) :
  (connect w).2 = Returned tt /\
  is_Some (repo (sync (connect w).1)) /\
  isConnected (connect w).1
    = match repo (sync w) with Some _ => isConnected w | None => true end /\
  emitted (connect w).1
    = emitted w ++
      match repo (sync w) with Some _ => [] | None => [("connected", NoData)] end /\
  connect (connect w).1 = ((connect w).1, Returned tt).
Proof.
  destruct (repo (sync w)) as [r|] eqn:Hr.
  - assert (Hc : connect w = (w, Returned tt)).
    { unfold connect, bind, get. by rewrite Hr. }
    rewrite !Hc. simpl. rewrite Hr, app_nil_r. by repeat split; eauto.
  - assert (Hc : connect w =
                 emit "connected" NoData
                   (with_sync (set_isConnected true)
                      (with_sync (fun s => set_repo (Some (syncUrl s)) s) w))).
    { unfold connect, bind, get. by rewrite Hr. }
    rewrite !Hc. simpl. do 4 (split; [by eauto|]).
    reflexivity.
Qed.

(** X9: [disconnect()] always returns and leaves the session without
    repository and without document, after closing the active document
    if there was one ([document-closed] before [disconnected]); from
    then on [createDocument] and [openDocument] throw without changing
    anything. *)
Theorem disconnect_effect (w : World V) (newId x : string) (now : Z) :
  let w' := (disconnect w).1 in
  (disconnect w).2 = Returned tt /\
  repo (sync w') = None /\
  isConnected w' = false /\
  getHandle w' = None /\
  getContent w' = "" /\
  emitted w' = emitted w ++
    match handle (sync w) with
    | Some _ => [("document-closed", NoData)]
    | None => []
    end ++
    [("disconnected", NoData)] /\
  createDocument newId now w'
    = (w', Threw (Error "Not connected. Call connect() first.")) /\
  openDocument x w'
    = (w', Threw (Error "Not connected. Call connect() first.")).
Proof.
  destruct (closeDocument_returns w) as (wc & Hwc & Hh & _ & _ & He & Hn).
  assert (Hd : disconnect w =
               (emit "disconnected" NoData
                  (with_sync (set_isConnected false) (with_sync (set_repo None) wc)))).
  { unfold disconnect, bind, get.
    destruct (handle (sync w)) eqn:Hw; [by rewrite Hwc|].
    by rewrite (Hn eq_refl). }
  simpl. rewrite Hd. simpl.
  split; [done|]. split; [done|]. split; [done|]. split; [done|].
  split; [by unfold getContent; simpl; rewrite Hh|].
  split; [by rewrite He, app_assoc|].
  split; reflexivity.
Qed.

End SessionFurther.

Section SessionFailures.

Context {V : Type} `{EditorSurface V}.

Lemma closeDocument_handle_doc (w : World V) (h : string) :
  handle_doc h (closeDocument w).1 = handle_doc h w.
Proof.
  unfold closeDocument, bind, get.
  destruct (handle (sync w)) as [h0|]; [|done].
  destruct (_changeHandler (sync w)) as [c|]; [|done].
  unfold handle_doc. simpl. rewrite lookup_alter. case_decide as Heq; [|done].
  subst h0. by destruct (handles w !! h).
Qed.

Lemma closeDocument_frame (w : World V) :
  banners (closeDocument w).1 = banners w /\
  nextClosure (closeDocument w).1 = nextClosure w.
Proof.
  unfold closeDocument, bind, get.
  destruct (handle (sync w)) as [h0|]; [|done].
  by destruct (_changeHandler (sync w)) as [c|].
Qed.

(** [openDocument] without an active document, for an identifier
    behind which there is no ready document. *)
Lemma openDocument_unresolved (w : World V) (x : string) :
  is_Some (repo (sync w)) ->
  handle (sync w) = None ->
  handle_doc (documentIdOf (fullDocId x)) w = None ->
  exists e,
    (openDocument x w).2 = Threw e /\
    emitted (openDocument x w).1 = emitted w ++ [("error", ErrorEvent e "openDocument")] /\
    banners (openDocument x w).1 = banners w ++
      ["Failed to load document. It may not exist or the network may be unavailable."] /\
    handles (openDocument x w).1 = handles w /\
    nextClosure (openDocument x w).1 = nextClosure w /\
    _documentId (sync (openDocument x w).1) = _documentId (sync w).
Proof.
  intros [r Hr] Hh Hdc.
  unfold openDocument, bind, get. rewrite Hr, Hh.
  unfold try_catch, ret, repo_find, bind, get, throw.
  unfold handle_doc in Hdc.
  destruct (handles w !! documentIdOf (fullDocId x)) as [hd|] eqn:Hl.
  - simpl in Hdc. unfold modify, this_handle, bind, get, ret. simpl.
    unfold handle_whenReady, bind, get, handle_doc. simpl. rewrite Hl. simpl.
    rewrite Hdc. simpl. eexists. by repeat split.
  - simpl. eexists. by repeat split.
Qed.

(** X10: on a connected session, [openDocument(id)] for an identifier
    behind which there is no ready document closes the active document
    as usual and then fails: the promise is rejected with the error,
    the same error is emitted in an [error] event with context
    [openDocument], the banner is shown, and neither a handler is
    registered nor the identifier of the session set. *)
Theorem openDocument_failure (w : World V) (x : string) :
  is_Some (repo (sync w)) ->
  handle_doc (documentIdOf (fullDocId x)) w = None ->
  let wc := (closeDocument w).1 in
  let w' := (openDocument x w).1 in
  exists e,
    (openDocument x w).2 = Threw e /\
    emitted w' = emitted wc ++ [("error", ErrorEvent e "openDocument")] /\
    banners w' = banners w ++
      ["Failed to load document. It may not exist or the network may be unavailable."] /\
    handles w' = handles wc /\
    nextClosure w' = nextClosure w /\
    getDocumentId w' = getDocumentId wc.
Proof.
  intros Hr Hdoc. simpl.
  rewrite (openDocument_closes_first w x Hr).
  pose proof (closeDocument_handle_doc w (documentIdOf (fullDocId x))) as Hdc.
  destruct (closeDocument_frame w) as [Hb Hn].
  destruct (closeDocument_returns w) as (wc & Hwc & Hh & Hrc & _).
  rewrite Hwc in *. simpl in *. rewrite Hdoc in Hdc. rewrite <- Hb, <- Hn.
  apply openDocument_unresolved; [by rewrite Hrc|done|done].
Qed.

End SessionFailures.

(** ** The identifier of the session *)

Section DocumentId.

Context {V : Type} `{EditorSurface V}.










End DocumentId.

(** ** The subscriptions of the session *)

Section Subscriptions.

Context {V : Type} `{EditorSurface V}.

Lemma subscribers_kept_refl (w : World V) : subscribers_kept w w.
Proof. done. Qed.

Lemma subscribers_kept_trans (w1 w2 w3 : World V) :
  subscribers_kept w1 w2 -> subscribers_kept w2 w3 -> subscribers_kept w1 w3.
Proof. unfold subscribers_kept. congruence. Qed.

Ltac subscribers_leaf :=
  intros ?w;
  unfold subscribers_kept, emit, handle_on, handle_off, fresh_closure, view_dispatch, modify;
  simpl; repeat case_match; done.

Lemma subscribers_on (w : World V) (e e' : string) (cb : nat) :
  subscribers (on e cb w).1 e' =
  if decide (e = e')
  then (if decide (cb ∈ subscribers w e) then subscribers w e
        else subscribers w e ++ [cb])
  else subscribers w e'.
Proof.
  unfold subscribers, on, modify. simpl. rewrite lookup_insert.
  by case_decide.
Qed.

Lemma subscribers_off (w : World V) (e e' : string) (cb : nat) :
  subscribers (off e cb w).1 e' =
  if decide (e = e') then filter (fun c => c <> cb) (subscribers w e)
  else subscribers w e'.
Proof.
  unfold subscribers, off, modify. simpl.
  destruct (_listeners (sync w) !! e) as [ls|] eqn:Hl; simpl.
  - rewrite lookup_insert. by case_decide.
  - case_decide as Heq; [|done]. subst e'. by rewrite Hl.
Qed.

Lemma on_nodup (w : World V) (e : string) (cb : nat) :
  subscribers_nodup w -> subscribers_nodup (on e cb w).1.
Proof.
  intros Hw e'. rewrite subscribers_on.
  repeat case_decide; try apply Hw.
  apply NoDup_app. split; [apply Hw|]. split; [|apply NoDup_singleton].
  intros x Hx Hin. apply list_elem_of_singleton in Hin. by subst.
Qed.

Lemma off_nodup (w : World V) (e : string) (cb : nat) :
  subscribers_nodup w -> subscribers_nodup (off e cb w).1.
Proof.
  intros Hw e'. rewrite subscribers_off.
  case_decide; [apply NoDup_filter|]; apply Hw.
Qed.

Lemma subscribers_nodup_kept (w w' : World V) :
  subscribers_kept w w' -> subscribers_nodup w -> subscribers_nodup w'.
Proof. intros Hk Hw e. unfold subscribers. rewrite Hk. apply Hw. Qed.

(** [on] for a callback that is subscribed already changes nothing. *)
Lemma on_subscribed (w : World V) (e : string) (cb : nat) :
  cb ∈ subscribers w e -> on e cb w = (w, Returned tt).
Proof.
  intros Hin. unfold on, modify. f_equal.
  apply world_eq; try done. simpl.
  unfold subscribers in Hin.
  destruct (sync w) as [u r h d c ch ls]. unfold set_listeners. simpl in *.
  rewrite decide_True by done. f_equal. apply insert_id.
  destruct (ls !! e) as [l|] eqn:Hl; [done|].
  simpl in Hin. by apply elem_of_nil in Hin.
Qed.

(** In every world the program can be in, no callback is subscribed
    twice to an event. *)
Lemma reachable_subscribers_nodup (w : World V) : reachable w -> subscribers_nodup w.
Proof.
  induction 1 as [w (_ & Hs & _)|w c _ IH].
  - intros e. unfold subscribers. rewrite Hs. simpl. rewrite lookup_empty.
    apply NoDup_nil_2.
  - destruct c; unfold perform.
    all: try (eapply subscribers_nodup_kept; [|exact IH];
              match goal with |- subscribers_kept _ (?m _).1 =>
                revert w IH; intros w _; revert w; change (keeps subscribers_kept m) end;
              keeps_methods subscribers_kept_refl subscribers_kept_trans subscribers_leaf).
    + by apply on_nodup.
    + by apply off_nodup.
Qed.

(** X12: [on] subscribes a callback once: after [on(event, cb)], in
    any world the program can be in, [cb] is among the subscribers of
    the event, no subscriber is listed twice, the subscribers of other
    events are as before, and a repeated [on(event, cb)] changes
    nothing; [emit] then calls each subscriber once, in order. *)
Theorem on_subscribes_once (w : World V) (event : string) (cb : nat) :
  reachable w ->
  let w1 := (on event cb w).1 in
  (cb ∈ subscribers w1 event) /\
  NoDup (subscribers w1 event) /\
  (forall e, e <> event -> subscribers w1 e = subscribers w e) /\
  on event cb w1 = (w1, Returned tt) /\
  forall data,
    emit event data w1
    = (with_delivered
         (delivered w1 ++ ((fun c => (c, event, data)) <$> subscribers w1 event))
         (with_emitted (emitted w1 ++ [(event, data)]) w1),
       Returned tt).
Proof.
  intros Hr. cbv zeta.
  pose proof (on_nodup w event cb (reachable_subscribers_nodup w Hr) event) as Hn.
  assert (Hin : cb ∈ subscribers (on event cb w).1 event).
  { rewrite subscribers_on, decide_True by done.
    case_decide; [done|]. apply elem_of_app. right. by apply list_elem_of_singleton. }
  split; [exact Hin|]. split; [exact Hn|]. split; [|split; [|done]].
  - intros e He. by rewrite subscribers_on, decide_False.
  - by apply on_subscribed.
Qed.

(** X13: [off] removes the callback from the subscribers of the
    event, keeps the others in their order, and leaves the other events
    alone; [off] after [on] of a callback that was not subscribed
    restores the subscribers of the event. *)
Theorem off_unsubscribes (w : World V) (event : string) (cb : nat) :
  subscribers (off event cb w).1 event
    = filter (fun c => c <> cb) (subscribers w event) /\
  (cb ∉ subscribers (off event cb w).1 event) /\
  (forall e, e <> event -> subscribers (off event cb w).1 e = subscribers w e) /\
  ((cb ∉ subscribers w event) ->
   subscribers (off event cb (on event cb w).1).1 event = subscribers w event).
Proof.
  assert (He : subscribers (off event cb w).1 event
               = filter (fun c => c <> cb) (subscribers w event)).
  { by rewrite subscribers_off, decide_True. }
  split; [exact He|]. split; [|split].
  - rewrite He. intros Hin. by apply list_elem_of_filter in Hin as [Hne _].
  - intros e Hne. by rewrite subscribers_off, decide_False.
  - intros Hn. rewrite subscribers_off, decide_True by done.
    rewrite subscribers_on, decide_True by done. rewrite decide_False by done.
    rewrite filter_app, filter_cons, decide_False by (intros Hc; by apply Hc).
    rewrite filter_nil, app_nil_r.
    clear He. induction (subscribers w event) as [|x l IH]; [done|].
    apply not_elem_of_cons in Hn as [Hx Hl].
    rewrite filter_cons, decide_True by done. by rewrite IH.
Qed.

End Subscriptions.

(** ** Opening, reopening and closing *)

Section Opening.

Context {V : Type} `{EditorSurface V}.

(** [openDocument] on a connected session, when the identifier
    resolves to a ready document. *)
Lemma openDocument_ready (w : World V) (x : string) (docx : Doc) :
  is_Some (repo (sync w)) ->
  handle_doc (documentIdOf (fullDocId x)) w = Some docx ->
  let dx := documentIdOf (fullDocId x) in
  let wc := (closeDocument w).1 in
  let w' := (openDocument x w).1 in
  (openDocument x w).2 = Returned tt /\
  handle (sync w') = Some dx /\
  _documentId (sync w') = Some dx /\
  _changeHandler (sync w') = Some (nextClosure w) /\
  handle_doc dx w' = Some docx /\
  emitted w' = emitted wc ++ [("document-ready", DocumentReady (Some docx) dx false)] /\
  handles w' =
    alter (fun hd => mkHandle (h_doc hd) (h_listeners hd ++ [SyncChangeHandler (nextClosure w)]))
          dx (handles wc).
Proof.
  intros Hr Hdoc. cbv zeta.
  rewrite (openDocument_closes_first w x Hr).
  pose proof (closeDocument_handle_doc w (documentIdOf (fullDocId x))) as Hdc.
  destruct (closeDocument_frame w) as [_ Hn].
  destruct (closeDocument_returns w) as (wc & Hwc & Hh & Hrc & _).
  rewrite Hwc in *. simpl in Hdc, Hn |- *. rewrite Hdoc in Hdc. rewrite <- Hn.
  rewrite (openDocument_resolved wc x docx) by (by rewrite ?Hrc).
  simpl. do 4 (split; [done|]). split; [|done].
  unfold handle_doc in *. simpl. rewrite lookup_alter_eq.
  by destruct (handles wc !! documentIdOf (fullDocId x)).
Qed.

(** X14: whatever document the session held before, a successful
    [openDocument(x)] leaves [x] as the active document: it returns,
    [getHandle()] and [getDocumentId()] name [x], [getContent()] is
    the text of the document, and after the events of closing the
    previous document the session emits one [document-ready] with the
    snapshot and [isNew: false]. *)
Theorem openDocument_success (w : World V) (x : string) (docx : Doc) :
  is_Some (repo (sync w)) ->
  handle_doc (documentIdOf (fullDocId x)) w = Some docx ->
  let dx := documentIdOf (fullDocId x) in
  let w' := (openDocument x w).1 in
  (openDocument x w).2 = Returned tt /\
  getHandle w' = Some dx /\
  getDocumentId w' = Some dx /\
  getContent w' = default "" (content_text (content docx)) /\
  emitted w' = emitted w ++
    match handle (sync w) with
    | Some _ => [("document-closed", NoData)]
    | None => []
    end ++
    [("document-ready", DocumentReady (Some docx) dx false)].
Proof.
  intros Hr Hdoc. cbv zeta.
  destruct (openDocument_ready w x docx Hr Hdoc) as (H1 & H2 & H3 & _ & H5 & H6 & _).
  split; [done|]. split; [done|]. split; [done|]. split.
  - unfold getContent. by rewrite H2, H5.
  - rewrite H6. destruct (closeDocument_returns w) as (wc & Hwc & _ & _ & _ & He & _).
    rewrite Hwc. simpl. by rewrite He, app_assoc.
Qed.

Lemma documentIdOf_fullDocId (id : string) :
  startsWith scheme id = false -> documentIdOf (fullDocId id) = id.
Proof.
  intros Hid. unfold fullDocId. rewrite Hid.
  unfold documentIdOf. rewrite startsWith_scheme. reflexivity.
Qed.

(** X15: the identifier [createDocument()] returns opens the document
    it created: after [createDocument()], [openDocument] of the
    returned identifier succeeds with that document active again, its
    content the empty string, reported by [document-ready] with
    [isNew: false]; and the address written by [createDocument] ends in
    [?doc=] followed by that identifier. *)
Theorem create_then_reopen (w : World V) (newId : string) (now : Z) :
  is_Some (repo (sync w)) ->
  startsWith scheme newId = false ->
  let w1 := (createDocument newId now w).1 in
  let w2 := (openDocument newId w1).1 in
  let snapshot := mkDoc (CString "") (Some (mkMetadata now 1)) in
  (createDocument newId now w).2 = Returned (Some newId) /\
  address w1 = pathname w +:+ "?doc=" +:+ newId /\
  (openDocument newId w1).2 = Returned tt /\
  getHandle w2 = Some newId /\
  getDocumentId w2 = Some newId /\
  getContent w2 = "" /\
  emitted w2 = emitted w1 ++
    [("document-closed", NoData);
     ("document-ready", DocumentReady (Some snapshot) newId false)].
Proof.
  intros Hr Hid. cbv zeta.
  rewrite createDocument_connected by done. simpl fst. simpl snd.
  set (w1 := mkWorld _ _ _ _ _ _ _ _ _ _ _).
  split; [done|]. split; [done|].
  assert (Hr1 : is_Some (repo (sync w1))) by done.
  assert (Hdoc : handle_doc (documentIdOf (fullDocId newId)) w1
                 = Some (mkDoc (CString "") (Some (mkMetadata now 1)))).
  { rewrite documentIdOf_fullDocId by done.
    unfold handle_doc. simpl. by rewrite lookup_insert_eq. }
  destruct (openDocument_ready w1 newId _ Hr1 Hdoc) as (H1 & H2 & H3 & _ & H5 & H6 & _).
  rewrite documentIdOf_fullDocId in * by done.
  split; [done|]. split; [done|]. split; [done|]. split.
  - unfold getContent. by rewrite H2, H5.
  - rewrite H6. destruct (closeDocument_returns w1) as (wc & Hwc & _ & _ & _ & He & _).
    rewrite Hwc. simpl. rewrite He. simpl. by rewrite <- app_assoc.
Qed.

Lemma receive_change_one_listener (w : World V) h c doc patches :
  listeners_of w h = [SyncChangeHandler c] ->
  (receive_change h doc patches w).2 = Returned tt /\
  emitted (receive_change h doc patches w).1
    = emitted w ++ [("remote-change", RemoteChange (Some doc) (Some patches))] /\
  handle_doc h (receive_change h doc patches w).1 = Some doc /\
  sync (receive_change h doc patches w).1 = sync w.
Proof.
  intros Hl. unfold receive_change, bind, modify, handle_emit_change, bind, get.
  assert (Hl' : listeners_of
                  (with_handles (alter (fun hd => mkHandle (Some doc) (h_listeners hd)) h) w) h
                = [SyncChangeHandler c]).
  { unfold listeners_of in *. simpl. rewrite lookup_alter_eq.
    by destruct (handles w !! h). }
  rewrite Hl'. simpl. repeat split.
  unfold handle_doc. simpl. rewrite lookup_alter_eq.
  unfold listeners_of in Hl. by destruct (handles w !! h).
Qed.

(** X16: the subscription of the session follows the active document.
    After [openDocument(x)] on a session without a document, for a
    document nobody listens to yet, a change of [x] arriving from
    elsewhere is emitted as exactly one [remote-change] carrying the
    new snapshot and the patches, and [getContent()] returns the new
    text; after [closeDocument()] the store of handles is as it was
    before the document was opened and a further change emits
    nothing. *)
Theorem subscription_follows_document (w : World V) (x : string) (docx : Doc) :
  is_Some (repo (sync w)) ->
  getHandle w = None ->
  handle_doc (documentIdOf (fullDocId x)) w = Some docx ->
  listeners_of w (documentIdOf (fullDocId x)) = [] ->
  let dx := documentIdOf (fullDocId x) in
  let w1 := (openDocument x w).1 in
  let w2 := (closeDocument w1).1 in
  (forall doc patches,
     (receive_change dx doc patches w1).2 = Returned tt /\
     emitted (receive_change dx doc patches w1).1
       = emitted w1 ++ [("remote-change", RemoteChange (Some doc) (Some patches))] /\
     getContent (receive_change dx doc patches w1).1
       = default "" (content_text (content doc))) /\
  handles w2 = handles w /\
  (forall doc patches,
     emitted (receive_change dx doc patches w2).1 = emitted w2).
Proof.
  intros Hr Hh Hdoc Hl. cbv zeta.
  destruct (openDocument_ready w x docx Hr Hdoc) as (_ & H2 & _ & H4 & _ & _ & H7).
  assert (Hc : closeDocument w = (w, Returned tt)).
  { unfold closeDocument, bind, get. unfold getHandle in Hh. by rewrite Hh. }
  rewrite Hc in H7. simpl in H7.
  set (w1 := (openDocument x w).1) in *.
  set (dx := documentIdOf (fullDocId x)) in *.
  assert (Hl1 : listeners_of w1 dx = [SyncChangeHandler (nextClosure w)]).
  { unfold listeners_of, handle_doc in *. rewrite H7, lookup_alter_eq.
    destruct (handles w !! dx); simpl in *; [by rewrite Hl|done]. }
  assert (H2c : handles (closeDocument w1).1 = handles w).
  { rewrite (closeDocument_active w1 dx (nextClosure w)) by done. simpl.
    rewrite H7. apply map_eq. intros h.
    destruct (decide (dx = h)) as [<-|Hne]; [|by rewrite !lookup_alter_ne].
    rewrite !lookup_alter_eq. unfold listeners_of in Hl.
    destruct (handles w !! dx) as [[d ls]|]; simpl in *; [|done].
    subst ls. simpl. by rewrite filter_out_self. }
  split; [|split; [exact H2c|]].
  - intros doc patches.
    destruct (receive_change_one_listener w1 dx _ doc patches Hl1) as (R1 & R2 & R3 & R4).
    split; [done|]. split; [done|].
    unfold getContent. by rewrite R4, H2, R3.
  - intros doc patches. apply receive_change_no_listener.
    unfold listeners_of. rewrite H2c. exact Hl.
Qed.

End Opening.

(** ** Setting up the editor *)

Section Setup.

Context {V : Type} `{EditorSurface V}.

Lemma str_length_pos (t : string) : t <> "" -> (0 <? str_length t) = true.
Proof.
  destruct t; [done|]. intros _. apply Z.ltb_lt. unfold str_length. simpl. lia.
Qed.

Lemma alter_on_off (m : gmap string DocHandle) (h : string) (cb : Callback) :
  (forall hd, m !! h = Some hd -> cb ∉ h_listeners hd) ->
  alter (fun hd => mkHandle (h_doc hd) (filter (fun c => c <> cb) (h_listeners hd))) h
    (alter (fun hd => mkHandle (h_doc hd) (h_listeners hd ++ [cb])) h m) = m.
Proof.
  intros Hn. apply map_eq. intros k.
  destruct (decide (h = k)) as [<-|Hne]; [|by rewrite !lookup_alter_ne].
  rewrite !lookup_alter_eq.
  destruct (m !! h) as [[d ls]|] eqn:Hh; [|done].
  simpl. f_equal. f_equal. apply filter_out_last. apply (Hn _ eq_refl).
Qed.

(** The two readers of the content agree on the active handle. *)
Lemma getAutomergeContent_active (w : World V) (h : string) :
  handle (sync w) = Some h -> getAutomergeContent h w = getContent w.
Proof.
  intros Hh. unfold getAutomergeContent, getContent. rewrite Hh.
  destruct (handle_doc h w) as [doc|]; [|done].
  destruct (content doc) as [|s|s]; simpl; try done.
  by destruct (decide (s = "")).
Qed.

(** [setupEditorWithBinding], field by field. *)
Lemma setupEditorWithBinding_world (w : World V) (h : string) :
  let w1 := (setupEditorWithBinding h w).1 in
  (setupEditorWithBinding h w).2 = Returned tt /\
  binding w1 = mkBinding h false (Some (nextClosure w)) true /\
  handles w1 =
    alter (fun hd => mkHandle (h_doc hd)
                       (h_listeners hd ++ [BindingChangeHandler (nextClosure w)]))
          h (handles w) /\
  sync w1 = sync w /\
  dispatched w1 = dispatched w ++
    match text_of w h with
    | Some t =>
        if decide (t = "") then []
        else [mkTransactionSpec (ChangeOne (mkChange 0 0 t)) None (Some true)]
    | None => []
    end.
Proof.
  cbv zeta.
  unfold setupEditorWithBinding, attach, bind, modify, get, fresh_closure, handle_on,
    modify, try_catch, ret. simpl.
  unfold text_of, handle_doc. simpl. rewrite lookup_alter_eq.
  destruct (handles w !! h) as [[[doc|] ls]|]; simpl;
    try (rewrite app_nil_r; by repeat split).
  destruct (content_text (content doc)) as [t|]; simpl;
    [|rewrite app_nil_r; by repeat split].
  destruct (decide (t = "")) as [->|Hne]; simpl.
  - rewrite app_nil_r. by repeat split.
  - rewrite str_length_pos by done. unfold loadInitialContent.
    destruct (decide (t = "")); [done|].
    unfold view_dispatch. simpl.
    destruct (view_apply _ _); simpl; by repeat split.
Qed.

(** X17: [setupEditorWithBinding] never throws, even when the view
    refuses the initial text.  For a handle without a listener of a
    binding it leaves the new binding Attached to that handle; it
    writes nothing to any document; it dispatches the text of the
    document, when that is not empty, as one tagged insertion at
    position 0 and nothing otherwise; for the session's active handle
    [window.getAutomergeContent()] and [getContent()] return the same
    text; and the [destroy] function it returns leaves the binding
    Detached and the store of handles as it was before the set-up. *)
Theorem setupEditorWithBinding_effect (w : World V) (h : string) :
  (forall h' hd c, handles w !! h' = Some hd -> BindingChangeHandler c ∉ h_listeners hd) ->
  let w1 := (setupEditorWithBinding h w).1 in
  (setupEditorWithBinding h w).2 = Returned tt /\
  attached w1 /\
  b_handle (binding w1) = h /\
  (forall h', handle_doc h' w1 = handle_doc h' w) /\
  dispatched w1 = dispatched w ++
    match text_of w h with
    | Some t =>
        if decide (t = "") then []
        else [mkTransactionSpec (ChangeOne (mkChange 0 0 t)) None (Some true)]
    | None => []
    end /\
  (getHandle w = Some h -> getAutomergeContent h w1 = getContent w1) /\
  (destroy w1).2 = Returned tt /\
  detached (destroy w1).1 /\
  handles (destroy w1).1 = handles w.
Proof.
  intros Hn. cbv zeta.
  destruct (setupEditorWithBinding_world w h) as (R & Hb & Hh & Hs & Hd).
  set (w1 := (setupEditorWithBinding h w).1) in *.
  assert (Hdet : destroy w1 =
                 (with_binding (set_attached false)
                    (with_binding (set_b_changeHandler None)
                       (with_handles
                          (alter (fun hd => mkHandle (h_doc hd)
                                    (filter (fun c => c <> BindingChangeHandler (nextClosure w))
                                            (h_listeners hd))) h) w1)),
                  Returned tt)).
  { unfold destroy, detach, bind, get, modify, handle_off. by rewrite Hb. }
  assert (Hrest : handles (destroy w1).1 = handles w).
  { rewrite Hdet. simpl. rewrite Hh. apply alter_on_off.
    intros hd Hl. by apply (Hn h hd). }
  split; [exact R|]. split; [|split; [by rewrite Hb|]].
  - split; [by rewrite Hb|]. exists (nextClosure w). split; [by rewrite Hb|].
    intros h' hd c' Hl Hin. rewrite Hh, lookup_alter in Hl.
    case_decide as Heq.
    + subst h'. destruct (handles w !! h) as [hd0|] eqn:Hl0; simpl in Hl; [|done].
      injection Hl as <-. simpl in Hin. apply elem_of_app in Hin as [Hin|Hin].
      * by destruct (Hn h hd0 c' Hl0).
      * apply list_elem_of_singleton in Hin. injection Hin as ->. by rewrite Hb.
    + by destruct (Hn h' hd c' Hl).
  - split; [|split; [exact Hd|]].
    + intros h'. unfold handle_doc. rewrite Hh, lookup_alter.
      case_decide as Heq; [|done]. subst h'. by destruct (handles w !! h).
    + split; [|split; [by rewrite Hdet|split; [|exact Hrest]]].
      * intros Hg. apply getAutomergeContent_active. unfold getHandle in Hg.
        by rewrite Hs.
      * rewrite Hdet. split; [done|]. split; [done|].
        intros h' hd c Hl. rewrite <- Hdet, Hrest in Hl. by apply (Hn h' hd c).
Qed.

End Setup.


(** ** The session and the binding on one handle *)

Section Wiring.

Context {V : Type} `{EditorSurface V}.

(** X18: the session announces its own edits too: with the session's
    handler as the only listener of the active handle, an
    [applyLocalEdit] inside the text that deletes or inserts something
    returns and emits exactly one [remote-change], carrying the
    snapshot with the new text. *)
Theorem local_edit_is_announced (w : World V) (h : string) (c : nat) (C : string)
    (p d : Z) (s : string) :
  getHandle w = Some h ->
  listeners_of w h = [SyncChangeHandler c] ->
  text_of w h = Some C ->
  0 <= p -> 0 <= d -> p + d <= str_length C ->
  0 < d \/ s <> "" ->
  exists doc' patches,
    (applyLocalEdit p d s w).2 = Returned tt /\
    content_text (content doc')
      = Some (str_slice C 0 p +:+ s +:+ str_slice C (p + d) (str_length C)) /\
    emitted (applyLocalEdit p d s w).1
      = emitted w ++ [("remote-change", RemoteChange (Some doc') (Some patches))].
Proof.
  intros Hh Hl Ht Hp Hd Hr Hne.
  apply text_of_Some in Ht as (doc & Hdoc & Hc).
  destruct (Automerge_splice_in_range doc C p d s Hc Hp Hd Hr) as (doc' & Hs & Hc').
  exists doc', (splice_patches p d s). unfold getHandle in Hh.
  unfold applyLocalEdit, handle_change, bind, get. rewrite Hh.
  unfold handle_doc in Hdoc.
  destruct (handles w !! h) as [hd|] eqn:Hlk; simpl in Hdoc; [|done].
  rewrite Hdoc, Hs. unfold modify.
  assert (Hps : splice_patches p d s <> []).
  { unfold splice_patches. destruct Hne as [Hd0|Hs0].
    - replace (0 <? d) with true by lia. done.
    - rewrite (decide_False (P := s = "")) by done.
      by destruct (0 <? d). }
  destruct (splice_patches p d s) as [|q qs] eqn:Hq; [done|].
  unfold handle_emit_change, bind, get, listeners_of in *. simpl.
  rewrite lookup_insert_eq. simpl. rewrite Hlk in Hl. simpl in Hl. rewrite Hl. simpl.
  by repeat split.
Qed.

(** X19: the wiring of the application.  On a connected session
    without a document, for a ready document nobody listens to yet,
    [openDocument(x)] followed by [setupEditorWithBinding] on the
    handle leaves the session's handler and then the binding's handler
    as the listeners of the handle.  A change that arrives from
    elsewhere with at least one usable patch is then emitted by the
    session as one [remote-change] and dispatched to the view as one
    tagged batch of the translated edits. *)
Theorem wired_editor (w : World V) (x : string) (docx : Doc) :
  is_Some (repo (sync w)) ->
  getHandle w = None ->
  handle_doc (documentIdOf (fullDocId x)) w = Some docx ->
  listeners_of w (documentIdOf (fullDocId x)) = [] ->
  let dx := documentIdOf (fullDocId x) in
  let w2 := (setupEditorWithBinding dx (openDocument x w).1).1 in
  listeners_of w2 dx
    = [SyncChangeHandler (nextClosure w); BindingChangeHandler (S (nextClosure w))] /\
  forall doc patches,
    content doc <> CUndefined ->
    patches_changes patches <> [] ->
    emitted (receive_change dx doc patches w2).1
      = emitted w2 ++ [("remote-change", RemoteChange (Some doc) (Some patches))] /\
    dispatched (receive_change dx doc patches w2).1
      = dispatched w2 ++
        [mkTransactionSpec (ChangeArray (patches_changes patches)) None (Some true)].
Proof.
  intros Hr Hh Hdoc Hl. cbv zeta.
  destruct (openDocument_ready w x docx Hr Hdoc) as (_ & _ & _ & _ & _ & _ & H7).
  assert (Hc : closeDocument w = (w, Returned tt)).
  { unfold closeDocument, bind, get. unfold getHandle in Hh. by rewrite Hh. }
  rewrite Hc in H7. simpl in H7.
  assert (Hn1 : nextClosure (openDocument x w).1 = S (nextClosure w)).
  { rewrite (openDocument_resolved w x docx) by done. done. }
  set (w1 := (openDocument x w).1) in *.
  set (dx := documentIdOf (fullDocId x)) in *.
  destruct (setupEditorWithBinding_world w1 dx) as (_ & Hb & Hh2 & _ & _).
  rewrite Hn1 in Hb, Hh2.
  set (w2 := (setupEditorWithBinding dx w1).1) in *.
  assert (Hl2 : listeners_of w2 dx
                = [SyncChangeHandler (nextClosure w); BindingChangeHandler (S (nextClosure w))]).
  { unfold listeners_of, handle_doc in *. rewrite Hh2, H7, !lookup_alter_eq.
    destruct (handles w !! dx); simpl in *; [by rewrite Hl|done]. }
  split; [exact Hl2|].
  intros doc patches Hcd Hps.
  unfold receive_change, bind, modify, handle_emit_change, bind, get.
  set (w3 := with_handles _ w2).
  assert (Hl3 : listeners_of w3 dx
                = [SyncChangeHandler (nextClosure w); BindingChangeHandler (S (nextClosure w))]).
  { unfold listeners_of in *. simpl. rewrite lookup_alter_eq.
    by destruct (handles w2 !! dx). }
  rewrite Hl3. simpl. unfold bind. simpl.
  set (w4 := with_delivered _ _).
  assert (Hg : _isSyncingLocalChange (binding w4) = false) by (simpl; by rewrite Hb).
  rewrite (handleRemoteChange_patches w4 doc patches Hg Hcd Hps).
  unfold view_dispatch.
  destruct (view_apply _ _); simpl; by split.
Qed.

End Wiring.

(** ** Further worked cases on the plain surface *)

(** The connected start world has its binding Detached. *)
Lemma plain_world_detached (id text : string) : detached (plain_world id text).
Proof.
  destruct (reachable_consistent _ (plain_world_reachable id text)) as [Hd|(Ha & _)].
  - exact Hd.
  - vm_compute in Ha. discriminate Ha.
Defined.

Lemma opened_world_reachable : reachable opened_world.
Proof. apply reachable_call, plain_world_reachable. Defined.

(** Attaching and detaching the binding of the start world. *)
Lemma attach_detach_round_trip_witness :
  handles (detach (attach (plain_world "doc1" "hello world")).1).1
  = handles (plain_world "doc1" "hello world").
Proof.
  refine (proj1 (proj2 (proj2
    (attach_detach_round_trip (plain_world "doc1" "hello world") _)))).
  apply plain_world_detached.
Defined.

(** Attaching twice after the document was opened. *)
Lemma attach_idempotent_witness :
  attach (attach opened_world).1 = ((attach opened_world).1, Returned tt).
Proof.
  refine (proj2 (proj2 (attach_idempotent opened_world _))).
  apply opened_world_reachable.
Defined.



(** Opening a document the repository does not have. *)
Lemma openDocument_failure_witness :
  exists e,
    (openDocument "nowhere" opened_world).2 = Threw e /\
    getDocumentId (openDocument "nowhere" opened_world).1 = None.
Proof.
  destruct (openDocument_failure opened_world "nowhere") as (e & He & _ & _ & _ & _ & Hd).
  - vm_compute. eexists. reflexivity.
  - vm_compute. reflexivity.
  - exists e. split; [exact He|]. rewrite Hd. vm_compute. reflexivity.
Defined.


(** Subscribing the callback 7 to [remote-change] twice. *)
Lemma on_subscribes_once_witness :
  on "remote-change" 7 (on "remote-change" 7 opened_world).1
  = ((on "remote-change" 7 opened_world).1, Returned tt).
Proof.
  refine (proj1 (proj2 (proj2 (proj2
    (on_subscribes_once opened_world "remote-change" 7 _))))).
  apply opened_world_reachable.
Defined.

(** Opening [doc1] on the connected start world. *)
Lemma openDocument_success_witness :
  getContent (openDocument "doc1" (plain_world "doc1" "hello world")).1
  = default "" (content_text (content (mkDoc (CString "hello world") (Some (mkMetadata 0 1))))).
Proof.
  refine (proj1 (proj2 (proj2 (proj2
    (openDocument_success (plain_world "doc1" "hello world") "doc1"
       (mkDoc (CString "hello world") (Some (mkMetadata 0 1))) _ _))))).
  - vm_compute. eexists. reflexivity.
  - vm_compute. reflexivity.
Defined.

(** Creating the document [fresh] and opening it by the identifier
    returned. *)
Lemma create_then_reopen_witness :
  getHandle
    (openDocument "fresh"
       (createDocument "fresh" 42 (plain_world "doc1" "hello world")).1).1
  = Some "fresh".
Proof.
  refine (proj1 (proj2 (proj2 (proj2
    (create_then_reopen (plain_world "doc1" "hello world") "fresh" 42 _ _))))).
  - vm_compute. eexists. reflexivity.
  - vm_compute. reflexivity.
Defined.

(** Opening and closing [doc1] on the connected start world. *)
Lemma subscription_follows_document_witness :
  handles
    (closeDocument (openDocument "doc1" (plain_world "doc1" "hello world")).1).1
  = handles (plain_world "doc1" "hello world").
Proof.
  refine (proj1 (proj2
    (subscription_follows_document (plain_world "doc1" "hello world") "doc1"
       (mkDoc (CString "hello world") (Some (mkMetadata 0 1))) _ _ _ _))).
  - vm_compute. eexists. reflexivity.
  - vm_compute. reflexivity.
  - vm_compute. reflexivity.
  - vm_compute. reflexivity.
Defined.

(** Setting the editor up on the handle of [doc1] after it was opened. *)
Lemma setupEditorWithBinding_effect_witness :
  (setupEditorWithBinding "doc1" opened_world).2 = Returned tt /\
  attached (setupEditorWithBinding "doc1" opened_world).1.
Proof.
  destruct (setupEditorWithBinding_effect opened_world "doc1") as (Hr & Ha & _).
  - destruct (reachable_consistent _ opened_world_reachable) as [(_ & _ & Hd)|(Ha & _)].
    + exact Hd.
    + vm_compute in Ha. discriminate Ha.
  - split; [exact Hr|exact Ha].
Defined.

(** An edit through the session with its handler listening. *)
Lemma local_edit_is_announced_witness :
  exists doc' patches,
    (applyLocalEdit 6 5 "there" opened_world).2 = Returned tt /\
    content_text (content doc')
      = Some (str_slice "hello world" 0 6 +:+ "there" +:+
              str_slice "hello world" (6 + 5) (str_length "hello world")) /\
    emitted (applyLocalEdit 6 5 "there" opened_world).1
      = emitted opened_world ++
        [("remote-change", RemoteChange (Some doc') (Some patches))].
Proof.
  apply (local_edit_is_announced opened_world "doc1" 0).
  - reflexivity.
  - reflexivity.
  - reflexivity.
  - lia.
  - lia.
  - vm_compute. discriminate.
  - left. lia.
Defined.

(** The wiring on the connected start world. *)
Lemma wired_editor_witness :
  listeners_of
    (setupEditorWithBinding (documentIdOf (fullDocId "doc1"))
       (openDocument "doc1" (plain_world "doc1" "hello world")).1).1
    (documentIdOf (fullDocId "doc1"))
  = [SyncChangeHandler (nextClosure (plain_world "doc1" "hello world"));
     BindingChangeHandler (S (nextClosure (plain_world "doc1" "hello world")))].
Proof.
  refine (proj1 (wired_editor (plain_world "doc1" "hello world") "doc1"
            (mkDoc (CString "hello world") (Some (mkMetadata 0 1))) _ _ _ _)).
  - vm_compute. eexists. reflexivity.
  - vm_compute. reflexivity.
  - vm_compute. reflexivity.
  - vm_compute. reflexivity.
Defined.
